(** * MCP client tooling and the Tools Agent executor of n8n, in Rocq

    A shallow embedding of
    - [nodes/mcp/McpClientTool/utils.ts]: [getAllTools], [getSelectedTools],
      [getErrorDescriptionFromToolCall], [createCallTool],
      [mcpToolToDynamicTool], [normalizeAndValidateUrl], [connectMcpClient],
      [getAuthHeaders];
    - [nodes/mcp/McpClientTool/loadOptions.ts]: [getTools];
    - [json-schema-to-zod/src/parsers/parse-ref.ts] and [parse-default.ts];
    - [agents/ToolsAgent/V2/execute.ts]: [toolsAgentExecute];
    and the properties of the connection lifecycle proved about them. *)

From Stdlib Require Import List String Ascii ZArith Lia Bool Arith Permutation.
Import ListNotations.
Open Scope string_scope.
Open Scope list_scope.
Set Warnings "-register-all".

(** ** JavaScript values *)

Module Js.

(** The run-time values the modelled functions inspect.  An object is the
    list of its own enumerable properties in insertion order (keys are
    unique in a well-formed object; a lookup takes the first binding).
    [Error cls msg] is an instance of the error class [cls] whose [message]
    property is [msg]. *)
Inductive value : Type :=
| Undefined
| Null
| Bool (b : bool)
| Num (z : Z)
| Str (s : string)
| Arr (elems : list value)
| Obj (fields : list (string * value))
| Error (cls : string) (message : string).

(** [ToBoolean]. *)
Definition truthy (v : value) : bool :=
  match v with
  | Undefined | Null => false
  | Bool b => b
  | Num z => negb (z =? 0)%Z
  | Str s => negb (s =? "")
  | Arr _ | Obj _ | Error _ _ => true
  end.

(** [typeof v === 'object'] ([null] included, as in JavaScript). *)
Definition typeof_object (v : value) : bool :=
  match v with
  | Null | Arr _ | Obj _ | Error _ _ => true
  | _ => false
  end.

Definition isArray (v : value) : bool :=
  match v with Arr _ => true | _ => false end.

Definition typeof_string (v : value) : bool :=
  match v with Str _ => true | _ => false end.

Fixpoint lookup (k : string) (fields : list (string * value)) : option value :=
  match fields with
  | [] => None
  | (k', v) :: rest => if k' =? k then Some v else lookup k rest
  end.

(** [k in v], for the property names the code asks about (none of them is
    an array index, [length], or a member of a prototype). *)
Definition has_property (k : string) (v : value) : bool :=
  match v with
  | Obj fields => match lookup k fields with Some _ => true | None => false end
  | Error _ _ => (k =? "message") || (k =? "name")
  | _ => false
  end.

(** [v.k] on a value that is neither [null] nor [undefined]. *)
Definition get (k : string) (v : value) : value :=
  match v with
  | Obj fields => match lookup k fields with Some x => x | None => Undefined end
  | Error cls msg =>
      if k =? "message" then Str msg
      else if k =? "name" then Str cls
      else Undefined
  | _ => Undefined
  end.

(** [Object.keys(v).length] for a value that is not [null] or [undefined]. *)
Definition keys_length (v : value) : nat :=
  match v with
  | Obj fields => List.length fields
  | Arr elems => List.length elems
  | Str s => String.length s
  | _ => 0
  end.

Definition nullish (v : value) : bool :=
  match v with Undefined | Null => true | _ => false end.

(** [v !== undefined]. *)
Definition defined (v : value) : bool :=
  match v with Undefined => false | _ => true end.

End Js.

(** ** Completions and effects *)

(** How the evaluation of a piece of code ends: with a value, with a thrown
    value (a rejected promise, once awaited), or not within the steps
    granted to it. *)
Inductive Completion (A : Type) : Type :=
| Normal (a : A)
| Throw (e : Js.value)
| Diverged.

Arguments Normal {A} a.
Arguments Throw {A} e.
Arguments Diverged {A}.

(** A computation that leaves a trace of observable events. *)
Definition Eff (Ev A : Type) : Type := (list Ev * Completion A)%type.

Definition ret {Ev A} (a : A) : Eff Ev A := ([], Normal a).

Definition bind {Ev A B} (m : Eff Ev A) (k : A -> Eff Ev B) : Eff Ev B :=
  match snd m with
  | Normal a => (fst m ++ fst (k a), snd (k a))
  | Throw e => (fst m, Throw e)
  | Diverged => (fst m, Diverged)
  end.

Definition emit {Ev} (ev : Ev) : Eff Ev unit := ([ev], Normal tt).

Definition throw {Ev A} (e : Js.value) : Eff Ev A := ([], Throw e).

(** An awaited external call: the event, then the call's outcome. *)
Definition call {Ev A} (ev : Ev) (outcome : Completion A) : Eff Ev A :=
  ([ev], outcome).

(** [try { m } catch (e) { h e }]. *)
Definition tryCatch {Ev A} (m : Eff Ev A) (h : Js.value -> Eff Ev A) : Eff Ev A :=
  match snd m with
  | Throw e => (fst m ++ fst (h e), snd (h e))
  | _ => m
  end.

(** [try { m } finally { f }]: [f] runs when [m] completes, normally or
    not; an abrupt completion of [f] replaces that of [m]. *)
Definition tryFinally {Ev A} (m : Eff Ev A) (f : Eff Ev unit) : Eff Ev A :=
  match snd m with
  | Diverged => m
  | c =>
      (fst m ++ fst f,
       match snd f with
       | Normal _ => c
       | Throw e => Throw e
       | Diverged => Diverged
       end)
  end.

Declare Scope eff_scope.
Delimit Scope eff_scope with eff.
Notation "x <- m ;; k" := (bind m (fun x => k))
  (at level 61, m at next level, right associativity) : eff_scope.
Notation "m ;;; k" := (bind m (fun _ => k))
  (at level 61, right associativity) : eff_scope.

(** [v.k]: reading a member of [null] or [undefined] throws a [TypeError]. *)
Definition getMember {Ev} (k : string) (v : Js.value) : Eff Ev Js.value :=
  if Js.nullish v
  then throw (Js.Error "TypeError" ("Cannot read properties of null or undefined (reading '" ++ k ++ "')")%string)
  else ret (Js.get k v).

(** A value whose computation has no event of its own. *)
Definition lift {Ev A} (c : Completion A) : Eff Ev A := ([], c).

(** The state of a promise once settled, as [Promise.allSettled] reports it. *)
Inductive Settled (A : Type) : Type :=
| Fulfilled (value : A)
| Rejected (reason : Js.value).

Arguments Fulfilled {A} value.
Arguments Rejected {A} reason.

Definition settle {Ev A} (m : Eff Ev A) : Eff Ev (Settled A) :=
  (fst m,
   match snd m with
   | Normal a => Normal (Fulfilled a)
   | Throw e => Normal (Rejected e)
   | Diverged => Diverged
   end).

Definition trace {Ev A} (m : Eff Ev A) : list Ev := fst m.
Definition completion {Ev A} (m : Eff Ev A) : Completion A := snd m.

(** [createResultOk] / [createResultError] of n8n-workflow. *)
Inductive Result (A E : Type) : Type :=
| Ok (result : A)
| Err (error : E).

Arguments Ok {A E} result.
Arguments Err {A E} error.

(** ** Zod validators *)

Module Zod.

(** The validators the modelled code builds or inspects.  [ZodLazy getter]
    is [z.lazy(getter)]: the getter is called when a value is parsed. *)
Inductive ZodType : Type :=
| ZodAny
| ZodNever
| ZodString
| ZodNumber
| ZodBoolean
| ZodArray (element : ZodType)
| ZodLazy (getter : unit -> ZodType).

(** [schema._def.typeName]. *)
Definition typeName (schema : ZodType) : string :=
  match schema with
  | ZodAny => "ZodAny"
  | ZodNever => "ZodNever"
  | ZodString => "ZodString"
  | ZodNumber => "ZodNumber"
  | ZodBoolean => "ZodBoolean"
  | ZodArray _ => "ZodArray"
  | ZodLazy _ => "ZodLazy"
  end.

(** [schema.safeParse(v).success]. *)
Fixpoint accepts (schema : ZodType) (v : Js.value) : bool :=
  match schema with
  | ZodAny => true
  | ZodNever => false
  | ZodString => Js.typeof_string v
  | ZodNumber => match v with Js.Num _ => true | _ => false end
  | ZodBoolean => match v with Js.Bool _ => true | _ => false end
  | ZodArray element =>
      match v with
      | Js.Arr elems => forallb (accepts element) elems
      | _ => false
      end
  | ZodLazy getter => accepts (getter tt) v
  end.

End Zod.

(** ** json-schema-to-zod: parse-ref.ts and parse-default.ts *)

Module JsonSchemaToZod.

Import Zod.

(** The double quote, for the messages that quote a name. *)
Definition dquote : string := String (ascii_of_nat 34) EmptyString.

(** [Refs] of [types.ts]; [path], the way from the root to the schema being
    parsed, is the one member [parseRef] reads. *)
Record Refs : Type := { path : list Js.value }.

Section Parsers.

(** [String(v)] for a value that is not a string, and [JSON.stringify]:
    the JavaScript runtime's, taken as given. *)
Variable toStringOther : Js.value -> string.
Variable JSON_stringify : Js.value -> string.

(** A value interpolated in a template literal. *)
Definition interpolate (v : Js.value) : string :=
  match v with
  | Js.Str s => s
  | _ => toStringOther v
  end.

(** [a || b]. *)
Definition or_else (a b : Js.value) : Js.value :=
  if Js.truthy a then a else b.

(** [const { $ref, ...rest } = schema]. *)
Definition withoutRef (schema : Js.value) : Js.value :=
  match schema with
  | Js.Obj fields => Js.Obj (filter (fun kv => negb (fst kv =? "$ref")) fields)
  | _ => schema
  end.

(** [jsonSchema.$ref === '#']. *)
Definition isSelfReference (jsonSchema : Js.value) : bool :=
  match Js.get "$ref" jsonSchema with
  | Js.Str ref => ref =? "#"
  | _ => false
  end.

Definition parseRef (jsonSchema : Js.value) (refs : Refs) : Completion ZodType :=
  if isSelfReference jsonSchema then
    Normal (ZodLazy (fun _ =>
      let rootSchema := or_else (nth 0 (path refs) Js.Undefined) jsonSchema in
      let schemaWithoutRef := withoutRef rootSchema in
      ZodAny))
  else
    Throw (Js.Error "Error"
      ("Unsupported $ref: " ++ interpolate (Js.get "$ref" jsonSchema)
       ++ ". Only self-references ($ref: " ++ dquote ++ "#" ++ dquote
       ++ ") are currently supported.")%string).

Definition parseDefault (jsonSchema : Js.value) : Completion ZodType :=
  let schemaType :=
    or_else (Js.get "type" jsonSchema)
            (Js.Str (substring 0 100 (JSON_stringify jsonSchema))) in
  Throw (Js.Error "UnsupportedSchemaError"
    ("Unsupported JSON schema type or structure encountered: "
     ++ interpolate schemaType ++ ". No specific parser available.")%string).

End Parsers.

End JsonSchemaToZod.

(** ** langchain/tools *)

Module Langchain.

(** The members of a [DynamicStructuredTool] that the node sets. *)
Record DynamicStructuredTool (Func : Type) : Type := {
  name : string;
  description : string;
  schema : Zod.ZodType;
  func : Func;
  isFromToolkit : bool
}.

Arguments name {Func} _.
Arguments description {Func} _.
Arguments schema {Func} _.
Arguments func {Func} _.
Arguments isFromToolkit {Func} _.

End Langchain.

(** ** Regular expressions, as far as the address test needs them *)

Module Regex.

Inductive Regex : Type :=
| Empty
| Char (c : ascii)
| Optional (r : Regex)
| Seq (r1 r2 : Regex).

(** The pattern that matches the characters of [s] in a row. *)
Fixpoint literal (s : string) : Regex :=
  match s with
  | EmptyString => Empty
  | String c rest => Seq (Char c) (literal rest)
  end.

(** [Canonicalize] under the [i] flag: a character compares by its upper
    case; only the letters a to z change. *)
Definition canonicalize (c : ascii) : ascii :=
  let n := nat_of_ascii c in
  if ((97 <=? n) && (n <=? 122))%nat then ascii_of_nat (n - 32) else c.

Definition sameChar (ignoreCase : bool) (a b : ascii) : bool :=
  if ignoreCase then Ascii.eqb (canonicalize a) (canonicalize b)
  else Ascii.eqb a b.

(** The rests of [s] after each way [r] matches at its start, in the
    matcher's order of preference (an optional part is tried first). *)
Fixpoint matchStart (ignoreCase : bool) (r : Regex) (s : string) : list string :=
  match r with
  | Empty => [s]
  | Char c =>
      match s with
      | String c' rest => if sameChar ignoreCase c c' then [rest] else []
      | EmptyString => []
      end
  | Optional r' => matchStart ignoreCase r' s ++ [s]
  | Seq r1 r2 => flat_map (matchStart ignoreCase r2) (matchStart ignoreCase r1 s)
  end.

(** [/^r/.test(s)], with the [i] flag when [ignoreCase]. *)
Definition test (ignoreCase : bool) (r : Regex) (s : string) : bool :=
  match matchStart ignoreCase r s with
  | [] => false
  | _ :: _ => true
  end.

End Regex.

(** ** McpClientTool/utils.ts *)

Module McpUtils.

Record McpTool : Type := {
  name : string;
  description : option string;
  inputSchema : Js.value
}.

(** *** getAllTools *)

(** The [tools] field of one [listTools] response, as it arrives. *)
Inductive ToolsField : Type :=
| ToolsArray (ts : list McpTool)
| ToolsMissing
| ToolsMistyped (v : Js.value).

Record ListToolsResponse : Type := {
  tools : ToolsField;
  nextCursor : option string
}.

(** [client.listTools({ cursor })]: the page served for a cursor, or the
    rejection of the request. *)
Definition Client : Type := option string -> Completion ListToolsResponse.

(** [Array.isArray(response.tools) ? response.tools : []]. *)
Definition currentTools (response : ListToolsResponse) : list McpTool :=
  match tools response with
  | ToolsArray ts => ts
  | _ => []
  end.

(** [if (nextCursor)]: a cursor that is absent or the empty string ends the
    listing. *)
Definition cursorPresent (c : option string) : bool :=
  match c with
  | Some s => negb (s =? "")
  | None => false
  end.

(** The recursion of [getAllTools] follows the server's cursors, so it is
    bounded here by [fuel], the number of requests it may issue. *)
Fixpoint getAllTools (fuel : nat) (client : Client) (cursor : option string)
  : Completion (list McpTool) :=
  match fuel with
  | O => Diverged
  | S fuel' =>
      match client cursor with
      | Normal response =>
          if cursorPresent (nextCursor response) then
            match getAllTools fuel' client (nextCursor response) with
            | Normal nextTools => Normal (currentTools response ++ nextTools)
            | Throw e => Throw e
            | Diverged => Diverged
            end
          else Normal (currentTools response)
      | Throw e => Throw e
      | Diverged => Diverged
      end
  end.

(** *** getSelectedTools *)

(** [new Set(names).has(n)]. *)
Definition set_has (names : list string) (n : string) : bool :=
  existsb (String.eqb n) names.

Definition getSelectedTools (mode : string)
    (includeTools excludeTools : option (list string))
    (tools : list McpTool) : list McpTool :=
  if mode =? "selected" then
    match includeTools with
    | None | Some [] => tools
    | Some include => filter (fun tool => set_has include (name tool)) tools
    end
  else if mode =? "except" then
    let except := match excludeTools with Some l => l | None => [] end in
    filter (fun tool => negb (set_has except (name tool))) tools
  else tools.


(** *** getErrorDescriptionFromToolCall and createCallTool *)

(** The predicate handed to [Array.prototype.find]:
    [content && typeof content === 'object' && typeof content.text === 'string']. *)
Definition isTextual (content : Js.value) : bool :=
  Js.truthy content && Js.typeof_object content
  && Js.typeof_string (Js.get "text" content).

(** A value the code has just tested to be a string. *)
Definition asString (v : Js.value) : option string :=
  match v with Js.Str s => Some s | _ => None end.

Definition getErrorDescriptionFromToolCall (result : Js.value) : option string :=
  if Js.truthy result && Js.typeof_object result then
    if Js.has_property "content" result && Js.isArray (Js.get "content" result) then
      match Js.get "content" result with
      | Js.Arr content =>
          match find isTextual content with
          | Some element => asString (Js.get "text" element)
          | None => None
          end
      | _ => None
      end
    else if Js.has_property "toolResult" result
            && Js.typeof_string (Js.get "toolResult" result) then
      asString (Js.get "toolResult" result)
    else if Js.has_property "message" result
            && Js.typeof_string (Js.get "message" result) then
      asString (Js.get "message" result)
    else None
  else None.

(** [client.callTool({ name, arguments }, schema, options)]. *)
Inductive CallEvent : Type :=
| CallTool (name : string) (arguments : Js.value).

(** [createCallTool name client onError]; [callTool] is the remote call and
    [onError] the caller's handler, both supplied by the node. *)
Definition createCallTool (name : string)
    (callTool : string -> Js.value -> Completion Js.value)
    (onError : option string -> Eff CallEvent Js.value)
    (args : Js.value) : Eff CallEvent Js.value :=
  (settled <- settle (call (CallTool name args) (callTool name args)) ;;
   match settled with
   | Rejected error => onError (getErrorDescriptionFromToolCall error)
   | Fulfilled result =>
       if Js.truthy (Js.get "isError" result) then
         onError (getErrorDescriptionFromToolCall result)
       else if Js.defined (Js.get "toolResult" result) then
         ret (Js.get "toolResult" result)
       else if Js.defined (Js.get "content" result) then
         ret (Js.get "content" result)
       else ret result
   end)%eff.

(** *** mcpToolToDynamicTool *)

Section SchemaConversion.

(** [convertJsonSchemaToZod] of [@utils/schemaParsing], which is not part of
    this module: any converter, with its outcome on each schema. *)
Variable convertJsonSchemaToZod : Js.value -> Completion Zod.ZodType.
Variable JSON_stringify : Js.value -> string.
Variable Func : Type.

Definition isTrivialOriginalSchema (inputSchema : Js.value) : bool :=
  negb (Js.truthy inputSchema)
  || (Js.keys_length inputSchema =? 0)%nat
  || match inputSchema with Js.Bool true => true | _ => false end.

Definition convertedToAnyMessage (tool : McpTool) : string :=
  ("Schema for tool " ++ JsonSchemaToZod.dquote ++ name tool ++ JsonSchemaToZod.dquote
   ++ " was converted to z.any(), indicating an unsupported feature (e.g., 'default' values) or an empty schema that couldn't be processed into a stricter type. Original schema: "
   ++ JSON_stringify (inputSchema tool))%string.

(** The body of the [try] block: the conversion and the check that it did
    not fall back to [z.any()]. *)
Definition convertToolSchema (tool : McpTool) : Completion Zod.ZodType :=
  match convertJsonSchemaToZod (inputSchema tool) with
  | Normal zodSchema =>
      let isActuallyAny := Zod.typeName zodSchema =? "ZodAny" in
      let isTrivial := isTrivialOriginalSchema (inputSchema tool) in
      if isActuallyAny && negb isTrivial then
        Throw (Js.Error "UnsupportedSchemaError" (convertedToAnyMessage tool))
      else Normal zodSchema
  | Throw e => Throw e
  | Diverged => Diverged
  end.

(** [error instanceof cls]. *)
Definition instanceof (error : Js.value) (cls : string) : bool :=
  match error with
  | Js.Error c _ => c =? cls
  | _ => false
  end.

Definition failedToPrepareMessage (tool : McpTool) (error : Js.value) : string :=
  ("Failed to prepare tool " ++ JsonSchemaToZod.dquote ++ name tool
   ++ JsonSchemaToZod.dquote ++ ": Schema conversion error. "
   ++ match Js.get "message" error with Js.Str m => m | _ => "" end
   ++ ". Input schema: " ++ JSON_stringify (inputSchema tool))%string.

Definition mcpToolToDynamicTool (tool : McpTool) (onCallTool : Func)
  : Completion (Langchain.DynamicStructuredTool Func) :=
  match convertToolSchema tool with
  | Normal zodSchema =>
      Normal {| Langchain.name := name tool;
                Langchain.description :=
                  match description tool with Some d => d | None => "" end;
                Langchain.schema := zodSchema;
                Langchain.func := onCallTool;
                Langchain.isFromToolkit := true |}
  | Throw error =>
      if instanceof error "UnsupportedSchemaError" then
        Throw (Js.Error "NodeOperationError" (failedToPrepareMessage tool error))
      else Throw error
  | Diverged => Diverged
  end.

End SchemaConversion.

(** *** normalizeAndValidateUrl and connectMcpClient *)

(** [/^https?:\/\//]. *)
Definition httpSchemePattern : Regex.Regex :=
  Regex.Seq (Regex.literal "http")
    (Regex.Seq (Regex.Optional (Regex.Char "s")) (Regex.literal "://")).

(** [!/^https?:\/\//i.test(input) ? `https://${input}` : input]. *)
Definition withProtocol (input : string) : string :=
  if negb (Regex.test true httpSchemePattern input)
  then ("https://" ++ input)%string
  else input.

Inductive ConnectMcpClientError : Type :=
| invalid_url (error : Js.value)
| connection (error : Js.value).

Section Connection.

(** The platform's [URL] class: the parsed address, or the [TypeError] that
    [new URL] throws. *)
Variable URL : Type.
Variable newURL : string -> URL + Js.value.

Variable Headers : Type.

(** [client.connect(transport)]: how the handshake with the server at an
    address ends. *)
Variable connect : URL -> option Headers -> Completion unit.

Definition safeCreateUrl (url : string) : Result URL Js.value :=
  match newURL url with
  | inl parsed => Ok parsed
  | inr error => Err error
  end.

Definition normalizeAndValidateUrl (input : string) : Result URL Js.value :=
  let parsedUrl := safeCreateUrl (withProtocol input) in
  match parsedUrl with
  | Err error => Err error
  | Ok _ => parsedUrl
  end.

(** What reaches the network layer. *)
Inductive NetEvent : Type :=
| NewSSEClientTransport (endpoint : URL) (headers : option Headers)
| NewClient (name : string) (version : Z)
| ClientConnect (endpoint : URL).

(** The connected [Client]. *)
Record ClientHandle : Type := {
  clientName : string;
  clientVersion : Z;
  endpoint : URL
}.

Definition connectMcpClient (headers : option Headers) (sseEndpoint : string)
    (name : string) (version : Z)
  : Eff NetEvent (Result ClientHandle ConnectMcpClientError) :=
  tryCatch
    (match normalizeAndValidateUrl sseEndpoint with
     | Err error => ret (Err (invalid_url error))
     | Ok url =>
         (emit (NewSSEClientTransport url headers) ;;;
          emit (NewClient name version) ;;;
          call (ClientConnect url) (connect url headers) ;;;
          ret (Ok {| clientName := name; clientVersion := version;
                     endpoint := url |}))%eff
     end)
    (fun error => ret (Err (connection error))).

End Connection.

End McpUtils.

(** ** agents/ToolsAgent/V2/execute.ts *)

Module ToolsAgent.

(** [Array.prototype.slice(start, end)] for integer bounds. *)
Definition slice {A} (start finish : Z) (l : list A) : list A :=
  let len := Z.of_nat (List.length l) in
  let k := if (start <? 0)%Z then Z.max (len + start) 0 else Z.min start len in
  let final := if (finish <? 0)%Z then Z.max (len + finish) 0 else Z.min finish len in
  firstn (Z.to_nat (final - k)) (skipn (Z.to_nat k) l).

Section Executor.

Variable Item : Type.
Variable Tool : Type.
(** What [executor.invoke] resolves to, and the item built from it by
    [omit(response, ...)]. *)
Variable Response : Type.
Variable Json : Type.

(** A close function of a toolkit: how the call [await close()] ends. *)
Definition Closer : Type := Completion unit.

(** What [getTools] resolves to.  Each member is the array the executor
    expects or, on the right, some other value. *)
Record ToolsResult : Type := {
  tools : list Tool + Js.value;
  closeFunctions : list Closer + Js.value
}.

(** The calls of [toolsAgentExecute] that reach outside of it. *)
Inductive Event : Type :=
| GetOptionalOutputParser
| GetTools
| GetOptionalMemory
| GetChatModel
| CreateToolCallingAgent (itemIndex : Z) (tools : list Tool)
| AgentExecutorFromAgentAndTools (itemIndex : Z) (tools : list Tool)
| ExecutorInvoke (itemIndex : Z)
| Sleep (ms : Z)
| Close (k : nat).

(** One execution's surroundings: the node's parameters and input, and
    the outcome of every call to a collaborator. *)
Record Env : Type := {
  inputData : list Item;
  getOptionalOutputParser : Completion bool;
  getTools : Completion (option ToolsResult);
  batchSize : Z;
  delayBetweenBatches : Z;
  getOptionalMemory : Completion bool;
  getChatModel : Completion unit;
  getPromptInputByType : Z -> option string;
  prepareMessages : Z -> Completion unit;
  executorInvoke : Z -> list Tool -> Completion Response;
  continueOnFail : bool;
  parseOutput : Response -> Completion Response;
  omitInternalKeys : Response -> Json;
  newNodeOperationError : Js.value -> Js.value;
  typeofName : Js.value -> string;
  JSON_stringify : Js.value -> string
}.

Inductive ExecutionData : Type :=
| ErrorItem (error : Js.value) (pairedItem : Z)
| ResultItem (json : Json) (pairedItem : Z).

Variable env : Env.

Definition emptyTextParameter : Js.value :=
  Js.Error "NodeOperationError"
    ("The " ++ JsonSchemaToZod.dquote ++ "text" ++ JsonSchemaToZod.dquote
     ++ " parameter is empty.")%string.

(** The body of the callback mapped over a batch. *)
Definition runItem (tools : list Tool) (itemIndex : Z) : Eff Event Response :=
  match getPromptInputByType env itemIndex with
  | None => throw emptyTextParameter
  | Some input =>
      (lift (prepareMessages env itemIndex) ;;;
       emit (CreateToolCallingAgent itemIndex tools) ;;;
       emit (AgentExecutorFromAgentAndTools itemIndex tools) ;;;
       call (ExecutorInvoke itemIndex) (executorInvoke env itemIndex tools))%eff
  end.

(** [Promise.allSettled(batch.map(...))].  The items of a batch run
    concurrently; their events are recorded here item after item. *)
Fixpoint runBatch (tools : list Tool) (i batchItemIndex : Z) (batch : list Item)
  : Eff Event (list (Settled Response)) :=
  match batch with
  | [] => ret []
  | _item :: rest =>
      (result <- settle (runItem tools (i + batchItemIndex)) ;;
       results <- runBatch tools i (batchItemIndex + 1) rest ;;
       ret (result :: results))%eff
  end.

(** [batchResults.forEach((result, index) => ...)]. *)
Fixpoint processResults (memory outputParser : bool) (i index : Z)
    (batchResults : list (Settled Response)) (returnData : list ExecutionData)
  : Eff Event (list ExecutionData) :=
  match batchResults with
  | [] => ret returnData
  | result :: rest =>
      let itemIndex := (i + index)%Z in
      (returnData' <-
         match result with
         | Rejected error =>
             if continueOnFail env then
               (message <- getMember "message" error ;;
                ret (returnData ++ [ErrorItem message itemIndex]))
             else throw (newNodeOperationError env error)
         | Fulfilled response =>
             (response' <-
                (if memory && outputParser
                 then lift (parseOutput env response)
                 else ret response) ;;
              ret (returnData ++ [ResultItem (omitInternalKeys env response') itemIndex]))
         end ;;
       processResults memory outputParser i (index + 1) rest returnData')%eff
  end.

(** The [for] loop over the batches; [fuel] bounds its iterations. *)
Fixpoint batchLoop (fuel : nat) (tools : list Tool) (memory outputParser : bool)
    (i : Z) (returnData : list ExecutionData) : Eff Event (list ExecutionData) :=
  if (i <? Z.of_nat (List.length (inputData env)))%Z then
    match fuel with
    | O => ([], Diverged)
    | S fuel' =>
        let batch := slice i (i + batchSize env) (inputData env) in
        (batchResults <- runBatch tools i 0 batch ;;
         returnData' <- processResults memory outputParser i 0 batchResults returnData ;;
         (if ((i + batchSize env <? Z.of_nat (List.length (inputData env)))%Z
              && (0 <? delayBetweenBatches env)%Z)%bool
          then emit (Sleep (delayBetweenBatches env))
          else ret tt) ;;;
         batchLoop fuel' tools memory outputParser (i + batchSize env) returnData')%eff
    end
  else ret returnData.

(** The [finally] block: every close function in turn, each in its own
    [try]; the handler logs [e.message]. *)
Fixpoint closeAll (k : nat) (closeFunctions : list Closer) : Eff Event unit :=
  match closeFunctions with
  | [] => ret tt
  | close :: rest =>
      (tryCatch (call (Close k) close)
                (fun e => _message <- getMember "message" e ;; ret tt) ;;;
       closeAll (S k) rest)%eff
  end.

Definition notAnArray (what label : string) (v : Js.value) : Js.value :=
  Js.Error "NodeOperationError"
    ("Expected " ++ what ++ " to be an array, but got " ++ typeofName env v
     ++ ". " ++ label ++ ": " ++ JSON_stringify env v)%string.

Definition toolsAgentExecute (fuel : nat) : Eff Event (list (list ExecutionData)) :=
  (outputParser <- call GetOptionalOutputParser (getOptionalOutputParser env) ;;
   toolsResult <- call GetTools (getTools env) ;;
   match toolsResult with
   | None => throw (Js.Error "TypeError" "Cannot destructure property 'tools'")
   | Some toolsResult =>
       match tools toolsResult with
       | inr v => throw (notAnArray "tools" "Tools value" v)
       | inl tools =>
           match closeFunctions toolsResult with
           | inr v => throw (notAnArray "closeFunctions" "Value" v)
           | inl closeFunctions =>
               memory <- call GetOptionalMemory (getOptionalMemory env) ;;
               _model <- call GetChatModel (getChatModel env) ;;
               returnData <-
                 tryFinally (batchLoop fuel tools memory outputParser 0 [])
                            (closeAll 0 closeFunctions) ;;
               ret [returnData]
           end
       end
   end)%eff.

End Executor.

Arguments GetOptionalOutputParser {Tool}.
Arguments GetTools {Tool}.
Arguments GetOptionalMemory {Tool}.
Arguments GetChatModel {Tool}.
Arguments CreateToolCallingAgent {Tool} itemIndex tools.
Arguments AgentExecutorFromAgentAndTools {Tool} itemIndex tools.
Arguments ExecutorInvoke {Tool} itemIndex.
Arguments Sleep {Tool} ms.
Arguments Close {Tool} k.
Arguments tools {Tool} _.
Arguments closeFunctions {Tool} _.
Arguments ErrorItem {Json} error pairedItem.
Arguments ResultItem {Json} json pairedItem.
Arguments inputData {Item Tool Response Json} _.
Arguments getOptionalOutputParser {Item Tool Response Json} _.
Arguments getTools {Item Tool Response Json} _.
Arguments batchSize {Item Tool Response Json} _.
Arguments delayBetweenBatches {Item Tool Response Json} _.
Arguments getOptionalMemory {Item Tool Response Json} _.
Arguments getChatModel {Item Tool Response Json} _.
Arguments getPromptInputByType {Item Tool Response Json} _ _.
Arguments prepareMessages {Item Tool Response Json} _ _.
Arguments executorInvoke {Item Tool Response Json} _ _ _.
Arguments continueOnFail {Item Tool Response Json} _.
Arguments parseOutput {Item Tool Response Json} _ _.
Arguments omitInternalKeys {Item Tool Response Json} _ _.
Arguments newNodeOperationError {Item Tool Response Json} _ _.
Arguments runItem {Item Tool Response Json} env tools itemIndex.
Arguments runBatch {Item Tool Response Json} env tools i batchItemIndex batch.
Arguments processResults {Item Tool Response Json} env memory outputParser i index batchResults returnData.
Arguments batchLoop {Item Tool Response Json} env fuel tools memory outputParser i returnData.
Arguments closeAll {Tool} k closeFunctions.
Arguments toolsAgentExecute {Item Tool Response Json} env fuel.

End ToolsAgent.

(** ** The toolkit builder *)

Module ToolkitBuilder.

Import McpUtils.

(** Modelled from the spec: the result of the Toolkit Builder (section 4.4),
    which is not among the sources: the tools of the capabilities that
    compiled, and, for reporting, the error of each capability that was
    dropped. *)
Record Build (Func : Type) : Type := {
  toolkit : list (Langchain.DynamicStructuredTool Func);
  adapterErrors : list (string * Js.value)
}.

Arguments toolkit {Func} _.
Arguments adapterErrors {Func} _.

Section Builder.

Variable convertJsonSchemaToZod : Js.value -> Completion Zod.ZodType.
Variable JSON_stringify : Js.value -> string.
Variable Func : Type.
(** The invoker built for a capability ([createCallTool] over its name and
    the connection). *)
Variable invoker : McpTool -> Func.

(** Modelled from the spec: the per-capability failure on which the
    Toolkit Builder drops a capability, an [UnsupportedSchemaError] and
    nothing else. *)
Definition isUnsupportedSchema (error : Js.value) : bool :=
  instanceof error "UnsupportedSchemaError".

(** Modelled from the spec: the Toolkit Builder of section 4.4, the part of
    the node's [supplyData] that turns a listed catalogue into tools; that
    function is not among the sources.  For each capability descriptor it
    calls the schema adapter, which in the sources is
    [mcpToolToDynamicTool]; on a per-capability [UnsupportedSchemaError]
    that single capability is dropped with the error information preserved
    for reporting, not the whole build; any other error of the adapter is
    not handled and ends the build; the build returns the remaining,
    possibly empty, sequence. *)
Fixpoint build (catalogue : list McpTool) : Completion (Build Func) :=
  match catalogue with
  | [] => Normal {| toolkit := []; adapterErrors := [] |}
  | tool :: rest =>
      match mcpToolToDynamicTool convertJsonSchemaToZod JSON_stringify Func
              tool (invoker tool) with
      | Normal descriptor =>
          match build rest with
          | Normal b =>
              Normal {| toolkit := descriptor :: toolkit b;
                        adapterErrors := adapterErrors b |}
          | other => other
          end
      | Throw error =>
          if isUnsupportedSchema error then
            match build rest with
            | Normal b =>
                Normal {| toolkit := toolkit b;
                          adapterErrors := (name tool, error) :: adapterErrors b |}
            | other => other
            end
          else Throw error
      | Diverged => Diverged
      end
  end.

(** Modelled from the spec: [build(handle)] calls the capability lister on
    the connection first; a listing failure fails the build. *)
Definition buildToolkit (fuel : nat) (client : Client) : Completion (Build Func) :=
  match getAllTools fuel client None with
  | Normal catalogue => build catalogue
  | Throw e => Throw e
  | Diverged => Diverged
  end.

End Builder.

End ToolkitBuilder.

(** ** getAuthHeaders (utils.ts) and McpClientTool/loadOptions.ts *)

Module McpLoadOptions.

(** [ctx.getCredentials(type)]. *)
Inductive AuthEvent : Type :=
| GetCredentials (type : string).

Section Auth.

Variable toStringOther : Js.value -> string.

(** The credential store: what the lookup of a credential type gives. *)
Variable getCredentials : string -> Completion Js.value.

(** [ctx.getCredentials(type).catch(() => null)]. *)
Definition credentialsOrNull (type : string) : Eff AuthEvent Js.value :=
  tryCatch (call (GetCredentials type) (getCredentials type))
           (fun _ => ret Js.Null).

(** The result is the [headers] member, absent in [{}]. *)
Definition getAuthHeaders (authentication : string) : Eff AuthEvent (option Js.value) :=
  if authentication =? "headerAuth" then
    (header <- credentialsOrNull "httpHeaderAuth" ;;
     if negb (Js.truthy header) then ret None
     else ret (Some (Js.Obj
            [(JsonSchemaToZod.interpolate toStringOther (Js.get "name" header),
              Js.get "value" header)])))%eff
  else if authentication =? "bearerAuth" then
    (result <- credentialsOrNull "httpBearerAuth" ;;
     if negb (Js.truthy result) then ret None
     else ret (Some (Js.Obj
            [("Authorization",
              Js.Str ("Bearer "
                      ++ JsonSchemaToZod.interpolate toStringOther
                           (Js.get "token" result)))])))%eff
  else ret None.

End Auth.

(** An entry of the tool drop-down. *)
Record INodePropertyOptions : Type := {
  name : string;
  value : string;
  description : option string;
  inputSchema : Js.value
}.

(** What [getTools] of [loadOptions.ts] reaches outside for. *)
Inductive LoadEvent (URL : Type) : Type :=
| Auth (e : AuthEvent)
| Net (e : McpUtils.NetEvent URL Js.value)
| GetAllTools.

Arguments Auth {URL} e.
Arguments Net {URL} e.
Arguments GetAllTools {URL}.

(** A computation run inside a larger one, its events renamed. *)
Definition embed {Ev Ev' A} (f : Ev -> Ev') (m : Eff Ev A) : Eff Ev' A :=
  (map f (fst m), snd m).

Definition couldNotConnect : Js.value :=
  Js.Error "NodeOperationError" "Could not connect to your MCP server".

Section LoadOptions.

Variable URL : Type.
Variable newURL : string -> URL + Js.value.
Variable connect : URL -> option Js.value -> Completion unit.
Variable toStringOther : Js.value -> string.
Variable getCredentials : string -> Completion Js.value.

(** [client.listTools] of a connected client. *)
Variable listTools : McpUtils.ClientHandle URL -> McpUtils.Client.

(** [getTools]; its arguments are the node's parameters [authentication]
    and [sseEndpoint] and the node's type and version.  [getAllTools]
    resolves to an array whenever it resolves, so the branch for a result
    that is not an array is never taken. *)
Definition getTools (fuel : nat) (authentication sseEndpoint nodeType : string)
    (nodeTypeVersion : Z) : Eff (LoadEvent URL) (list INodePropertyOptions) :=
  (headers <- embed Auth (getAuthHeaders toStringOther getCredentials authentication) ;;
   client <- embed Net (McpUtils.connectMcpClient URL newURL Js.value connect
                          headers sseEndpoint nodeType nodeTypeVersion) ;;
   match client with
   | Err _ => throw couldNotConnect
   | Ok connected =>
       toolsArray <- call GetAllTools
                       (McpUtils.getAllTools fuel (listTools connected) None) ;;
       ret (map (fun tool =>
                   {| name := McpUtils.name tool;
                      value := McpUtils.name tool;
                      description := McpUtils.description tool;
                      inputSchema := McpUtils.inputSchema tool |})
                toolsArray)
   end)%eff.

End LoadOptions.

End McpLoadOptions.

(** * Properties *)

(** ** The capability lister and the selection filter *)

Module ListingProps.

Import McpUtils.

(** The entries a page contributes to the catalogue: those of its [tools]
    array, and none when the field is missing or is not an array. *)
Definition pageEntries (page : ListToolsResponse) : list McpTool :=
  match tools page with
  | ToolsArray ts => ts
  | ToolsMissing => []
  | ToolsMistyped _ => []
  end.

(** [Listing client cursor pages failure]: from [cursor] on, the server
    answers with [pages], each naming the cursor of the next, and then
    either ends the chain ([failure = None]: the last page names no
    further cursor) or rejects the next request with [e]
    ([failure = Some e]). *)
Inductive Listing (client : Client)
  : option string -> list ListToolsResponse -> option Js.value -> Prop :=
| Listing_last cursor page :
    client cursor = Normal page ->
    cursorPresent (nextCursor page) = false ->
    Listing client cursor [page] None
| Listing_rejected cursor e :
    client cursor = Throw e ->
    Listing client cursor [] (Some e)
| Listing_next cursor page next pages failure :
    client cursor = Normal page ->
    nextCursor page = Some next ->
    next <> "" ->
    Listing client (Some next) pages failure ->
    Listing client cursor (page :: pages) failure.

(** The requests a listing takes. *)
Definition requests (pages : list ListToolsResponse) (failure : option Js.value) : nat :=
  List.length pages + match failure with Some _ => 1 | None => 0 end.

(** A server with three pages; the second one omits its [tools]. *)
Definition toolNamed (n : string) : McpTool :=
  {| name := n; description := None; inputSchema := Js.Obj [] |}.

Definition page0 : ListToolsResponse :=
  {| tools := ToolsArray [toolNamed "a"; toolNamed "b"]; nextCursor := Some "c1" |}.
Definition page1 : ListToolsResponse :=
  {| tools := ToolsMissing; nextCursor := Some "c2" |}.
Definition page2 : ListToolsResponse :=
  {| tools := ToolsArray [toolNamed "c"]; nextCursor := None |}.

Definition threePages : Client := fun cursor =>
  match cursor with
  | None => Normal page0
  | Some c =>
      if c =? "c1" then Normal page1
      else if c =? "c2" then Normal page2
      else Throw (Js.Error "McpError" "Invalid cursor")
  end.

Lemma cursorPresent_some (c : string) : c <> "" -> cursorPresent (Some c) = true.
Proof.
  intros H. unfold cursorPresent.
  destruct (String.eqb_spec c ""); [contradiction | reflexivity].
Qed.

Lemma currentTools_pageEntries (page : ListToolsResponse) :
  currentTools page = pageEntries page.
Proof. unfold currentTools, pageEntries. destruct (tools page); reflexivity. Qed.

(** C3. Over a chain of pages that ends in a response without a next
    cursor, [getAllTools] returns the pages' entries concatenated in chain
    order, a page whose [tools] is missing or not an array contributing
    none; when a request of the chain is rejected, the listing is rejected
    with that error and nothing of the earlier pages is returned. *)
Theorem getAllTools_concatenates_pages :
  forall (client : Client) (cursor : option string)
         (pages : list ListToolsResponse) (failure : option Js.value) (fuel : nat),
    Listing client cursor pages failure ->
    requests pages failure <= fuel ->
    getAllTools fuel client cursor =
      match failure with
      | None => Normal (List.concat (map pageEntries pages))
      | Some e => Throw e
      end.
Proof.
  intros client cursor pages failure fuel HL.
  revert fuel.
  induction HL as [cursor page Hc Hend | cursor e Hc
                  | cursor page next pages failure Hc Hnext Hne HL IH];
    intros fuel Hfuel; unfold requests in *; simpl in Hfuel.
  - destruct fuel as [|fuel]; [lia|]. simpl.
    rewrite Hc, Hend. simpl. rewrite app_nil_r.
    now rewrite currentTools_pageEntries.
  - destruct fuel as [|fuel]; [lia|]. simpl. now rewrite Hc.
  - destruct fuel as [|fuel]; [lia|]. simpl.
    rewrite Hc, Hnext, (cursorPresent_some next Hne).
    rewrite (IH fuel) by lia.
    destruct failure; [reflexivity|].
    simpl. now rewrite currentTools_pageEntries.
Qed.

Lemma threePages_listing :
  Listing threePages None [page0; page1; page2] None.
Proof.
  apply (Listing_next threePages None page0 "c1"); [reflexivity | reflexivity | discriminate |].
  apply (Listing_next threePages (Some "c1") page1 "c2"); [reflexivity | reflexivity | discriminate |].
  apply Listing_last; reflexivity.
Qed.

(** The same server when the request for the second page is rejected. *)
Definition secondPageRejected : Client := fun cursor =>
  match cursor with
  | None => Normal page0
  | Some _ => Throw (Js.Error "McpError" "Connection closed")
  end.

Lemma secondPageRejected_listing :
  Listing secondPageRejected None [page0]
    (Some (Js.Error "McpError" "Connection closed")).
Proof.
  apply (Listing_next secondPageRejected None page0 "c1");
    [reflexivity | reflexivity | discriminate |].
  apply Listing_rejected. reflexivity.
Qed.

Lemma getAllTools_concatenates_pages_witness :
  getAllTools 3 threePages None
  = Normal [toolNamed "a"; toolNamed "b"; toolNamed "c"]
  /\ getAllTools 2 secondPageRejected None
     = Throw (Js.Error "McpError" "Connection closed").
Proof.
  split.
  - exact (getAllTools_concatenates_pages threePages None [page0; page1; page2] None 3
             threePages_listing (le_n 3)).
  - exact (getAllTools_concatenates_pages secondPageRejected None [page0] _ 2
             secondPageRejected_listing (le_n 2)).
Defined.

End ListingProps.

Module SelectionProps.

Import McpUtils.

(** A tool whose name is one of [names]. *)
Definition namedIn (names : list string) (tool : McpTool) : bool :=
  if in_dec string_dec (name tool) names then true else false.

Lemma set_has_In (names : list string) (n : string) :
  set_has names n = true <-> In n names.
Proof.
  unfold set_has. rewrite existsb_exists. split.
  - intros [x [Hin Heq]]. apply String.eqb_eq in Heq. now subst.
  - intros Hin. exists n. split; [assumption | apply String.eqb_refl].
Qed.

Lemma set_has_namedIn (names : list string) (tool : McpTool) :
  set_has names (name tool) = namedIn names tool.
Proof.
  unfold namedIn. destruct (in_dec string_dec (name tool) names) as [Hin | Hout].
  - now apply set_has_In.
  - destruct (set_has names (name tool)) eqn:E; [|reflexivity].
    apply set_has_In in E. contradiction.
Qed.

Lemma filter_set_has (names : list string) (tools : list McpTool) :
  filter (fun tool => set_has names (name tool)) tools = filter (namedIn names) tools.
Proof. apply filter_ext. intros tool. apply set_has_namedIn. Qed.

Lemma filter_not_set_has (names : list string) (tools : list McpTool) :
  filter (fun tool => negb (set_has names (name tool))) tools
  = filter (fun tool => negb (namedIn names tool)) tools.
Proof. apply filter_ext. intros tool. now rewrite set_has_namedIn. Qed.

Lemma filter_all (tools : list McpTool) :
  filter (fun tool => negb (set_has [] (name tool))) tools = tools.
Proof. induction tools as [|t ts IH]; [reflexivity|]. simpl. now f_equal. Qed.

Lemma getSelectedTools_other_mode (mode : string)
    (includeTools excludeTools : option (list string)) (tools : list McpTool) :
  mode <> "selected" -> mode <> "except" ->
  getSelectedTools mode includeTools excludeTools tools = tools.
Proof.
  intros H1 H2. unfold getSelectedTools.
  destruct (String.eqb_spec mode "selected"); [contradiction|].
  destruct (String.eqb_spec mode "except"); [contradiction|].
  reflexivity.
Qed.

(** C9. The selection filter, mode by mode: ['selected'] with an absent or
    empty include list returns the full catalogue; ['selected'] with a
    non-empty include list returns exactly the tools named in it, in
    catalogue order; ['except'] returns the catalogue without the tools
    named in the exclude list (all of it when the list is absent); and
    ['all'], like any other mode value, returns the catalogue unchanged. *)
Theorem getSelectedTools_by_mode :
  forall (includeTools excludeTools : option (list string)) (tools : list McpTool),
    getSelectedTools "selected" None excludeTools tools = tools
    /\ getSelectedTools "selected" (Some []) excludeTools tools = tools
    /\ (forall include, include <> [] ->
          getSelectedTools "selected" (Some include) excludeTools tools
          = filter (namedIn include) tools
          /\ (forall tool, In tool (getSelectedTools "selected" (Some include) excludeTools tools)
                <-> In tool tools /\ In (name tool) include))
    /\ (forall exclude,
          getSelectedTools "except" includeTools (Some exclude) tools
          = filter (fun tool => negb (namedIn exclude tool)) tools
          /\ (forall tool, In tool (getSelectedTools "except" includeTools (Some exclude) tools)
                <-> In tool tools /\ ~ In (name tool) exclude))
    /\ getSelectedTools "except" includeTools None tools = tools
    /\ getSelectedTools "all" includeTools excludeTools tools = tools
    /\ (forall mode, mode <> "selected" -> mode <> "except" ->
          getSelectedTools mode includeTools excludeTools tools = tools).
Proof.
  intros includeTools excludeTools tools.
  split; [reflexivity|]. split; [reflexivity|].
  split; [|split; [|split; [|split]]].
  - intros include Hne.
    assert (E : getSelectedTools "selected" (Some include) excludeTools tools
                = filter (namedIn include) tools).
    { destruct include as [|n ns]; [contradiction|].
      unfold getSelectedTools. simpl (_ =? _). cbv iota.
      apply filter_set_has. }
    split; [exact E|].
    intros tool. rewrite E, filter_In. unfold namedIn.
    destruct (in_dec string_dec (name tool) include); intuition congruence.
  - intros exclude.
    assert (E : getSelectedTools "except" includeTools (Some exclude) tools
                = filter (fun tool => negb (namedIn exclude tool)) tools).
    { unfold getSelectedTools. simpl (_ =? _). cbv iota.
      apply filter_not_set_has. }
    split; [exact E|].
    intros tool. rewrite E, filter_In. unfold namedIn.
    destruct (in_dec string_dec (name tool) exclude); simpl; intuition congruence.
  - unfold getSelectedTools. simpl (_ =? _). cbv iota.
    apply filter_all.
  - reflexivity.
  - intros mode. apply getSelectedTools_other_mode.
Qed.

Lemma getSelectedTools_by_mode_witness :
  let catalogue := [ListingProps.toolNamed "a"; ListingProps.toolNamed "b";
                    ListingProps.toolNamed "c"] in
  getSelectedTools "selected" (Some ["b"; "zz"]) None catalogue
  = filter (namedIn ["b"; "zz"]) catalogue
  /\ getSelectedTools "everything" (Some ["b"; "zz"]) None catalogue = catalogue.
Proof.
  intros catalogue.
  destruct (getSelectedTools_by_mode (Some ["b"; "zz"]) None catalogue)
    as (_ & _ & Hselected & _ & _ & _ & Hother).
  split.
  - apply Hselected. discriminate.
  - apply Hother; discriminate.
Defined.

Example getSelectedTools_selected_example :
  getSelectedTools "selected" (Some ["b"; "zz"]) None
    [ListingProps.toolNamed "a"; ListingProps.toolNamed "b"; ListingProps.toolNamed "c"]
  = [ListingProps.toolNamed "b"].
Proof. reflexivity. Qed.

Example getSelectedTools_except_example :
  getSelectedTools "except" None (Some ["b"])
    [ListingProps.toolNamed "a"; ListingProps.toolNamed "b"; ListingProps.toolNamed "c"]
  = [ListingProps.toolNamed "a"; ListingProps.toolNamed "c"].
Proof. reflexivity. Qed.

Example getSelectedTools_unknown_mode_example :
  getSelectedTools "everything" (Some ["b"]) (Some ["a"])
    [ListingProps.toolNamed "a"; ListingProps.toolNamed "b"]
  = [ListingProps.toolNamed "a"; ListingProps.toolNamed "b"].
Proof. reflexivity. Qed.

End SelectionProps.

(** ** The error description of a tool call *)

Module ErrorDescriptionProps.

Import McpUtils.

(** The precedence as the interface describes it: the text of the first
    textual element of a content array, else the [toolResult] string, else
    the [message] string, else none. *)
Definition firstContentText (result : Js.value) : option string :=
  match Js.get "content" result with
  | Js.Arr content =>
      match find isTextual content with
      | Some element => asString (Js.get "text" element)
      | None => None
      end
  | _ => None
  end.

Definition stringField (k : string) (result : Js.value) : option string :=
  if Js.has_property k result then asString (Js.get k result) else None.

Definition orElse (a b : option string) : option string :=
  match a with Some _ => a | None => b end.

Definition describedPrecedence (result : Js.value) : option string :=
  if Js.truthy result && Js.typeof_object result then
    orElse (firstContentText result)
      (orElse (stringField "toolResult" result) (stringField "message" result))
  else None.

(** A result whose [content] is an array without a textual element. *)
Definition contentWithoutText (result : Js.value) : bool :=
  Js.truthy result && Js.typeof_object result
  && match Js.get "content" result with
     | Js.Arr content =>
         match find isTextual content with Some _ => false | None => true end
     | _ => false
     end.

(** An error result that carries an image and a message. *)
Definition imageOnlyError : Js.value :=
  Js.Obj [("isError", Js.Bool true);
          ("content", Js.Arr [Js.Obj [("type", Js.Str "image"); ("data", Js.Str "aGk=")]]);
          ("message", Js.Str "quota exceeded")].

Lemma get_array_has_property (k : string) (v : Js.value) (elems : list Js.value) :
  Js.get k v = Js.Arr elems -> Js.has_property k v = true.
Proof.
  destruct v; simpl; try discriminate.
  - destruct (Js.lookup k fields); [reflexivity | discriminate].
  - destruct (k =? "message"); [discriminate|].
    destruct (k =? "name"); discriminate.
Qed.

Lemma isTextual_text (element : Js.value) :
  isTextual element = true -> exists s, Js.get "text" element = Js.Str s.
Proof.
  unfold isTextual. intros H.
  apply andb_true_iff in H. destruct H as [_ H].
  destruct (Js.get "text" element); try discriminate. now exists s.
Qed.

Lemma stringField_spec (k : string) (result : Js.value) :
  stringField k result
  = if Js.has_property k result && Js.typeof_string (Js.get k result)
    then asString (Js.get k result) else None.
Proof.
  unfold stringField. destruct (Js.has_property k result); [|reflexivity].
  simpl. destruct (Js.get k result); reflexivity.
Qed.

Lemma asString_typeof (v : Js.value) :
  Js.typeof_string v = true -> exists s, asString v = Some s.
Proof. destruct v; try discriminate. intros _. now exists s. Qed.

(** The function, branch by branch. *)
Lemma getErrorDescription_content (result : Js.value) (content : list Js.value) :
  Js.truthy result && Js.typeof_object result = true ->
  Js.get "content" result = Js.Arr content ->
  getErrorDescriptionFromToolCall result
  = match find isTextual content with
    | Some element => asString (Js.get "text" element)
    | None => None
    end.
Proof.
  intros Hobj Hc. unfold getErrorDescriptionFromToolCall.
  rewrite Hobj, (get_array_has_property _ _ _ Hc), Hc. reflexivity.
Qed.

Lemma getErrorDescription_no_content_array (result : Js.value) :
  Js.truthy result && Js.typeof_object result = true ->
  Js.isArray (Js.get "content" result) = false ->
  getErrorDescriptionFromToolCall result
  = orElse (stringField "toolResult" result) (stringField "message" result).
Proof.
  intros Hobj Hc. unfold getErrorDescriptionFromToolCall.
  rewrite Hobj, Hc, andb_false_r, !stringField_spec.
  destruct (Js.has_property "toolResult" result
            && Js.typeof_string (Js.get "toolResult" result)) eqn:E.
  - apply andb_true_iff in E. destruct E as [_ E].
    destruct (asString_typeof _ E) as [s Hs]. now rewrite Hs.
  - reflexivity.
Qed.

Lemma getErrorDescription_not_object (result : Js.value) :
  Js.truthy result && Js.typeof_object result = false ->
  getErrorDescriptionFromToolCall result = None.
Proof. intros H. unfold getErrorDescriptionFromToolCall. now rewrite H. Qed.

(** C7, as the code has it.  When the result is an object whose [content]
    is an array, the description is the text of the array's first textual
    element, and none if it has no such element: [toolResult] and [message]
    are then not consulted.  In every other case the described precedence
    holds: the [toolResult] string, else the [message] string, else none;
    and a result that is not an object has no description.  [createCallTool]
    hands exactly this description to its caller's error handler, for a
    rejected call and for a result flagged [isError]. *)
Theorem getErrorDescription_precedence :
  forall result : Js.value,
    (contentWithoutText result = false ->
       getErrorDescriptionFromToolCall result = describedPrecedence result)
    /\ (contentWithoutText result = true ->
          getErrorDescriptionFromToolCall result = None)
    /\ (Js.truthy result && Js.typeof_object result = false ->
          getErrorDescriptionFromToolCall result = None)
    /\ (forall name callTool onError args,
          callTool name args = Throw result ->
          createCallTool name callTool onError args
          = (emit (CallTool name args) ;;;
             onError (getErrorDescriptionFromToolCall result))%eff)
    /\ (forall name callTool onError args,
          callTool name args = Normal result ->
          Js.truthy (Js.get "isError" result) = true ->
          createCallTool name callTool onError args
          = (emit (CallTool name args) ;;;
             onError (getErrorDescriptionFromToolCall result))%eff).
Proof.
  intros result. repeat split.
  - unfold contentWithoutText, describedPrecedence. intros H.
    destruct (Js.truthy result && Js.typeof_object result) eqn:Hobj.
    + simpl in H.
      destruct (Js.get "content" result) eqn:Hc;
        try (rewrite getErrorDescription_no_content_array;
             [unfold firstContentText; rewrite Hc; reflexivity
             | assumption | rewrite Hc; reflexivity]).
      rewrite (getErrorDescription_content _ _ Hobj Hc).
      unfold firstContentText. rewrite Hc.
      destruct (find isTextual elems) as [element|] eqn:Hf; [|discriminate].
      apply find_some in Hf. destruct Hf as [_ Hf].
      destruct (isTextual_text _ Hf) as [s Hs]. rewrite Hs. reflexivity.
    + now apply getErrorDescription_not_object.
  - unfold contentWithoutText. intros H.
    apply andb_true_iff in H. destruct H as [Hobj H].
    destruct (Js.get "content" result) eqn:Hc; try discriminate.
    rewrite (getErrorDescription_content _ _ Hobj Hc).
    destruct (find isTextual elems); [discriminate | reflexivity].
  - apply getErrorDescription_not_object.
  - intros name callTool onError args H.
    unfold createCallTool, call, settle, bind, emit. simpl. rewrite H. reflexivity.
  - intros name callTool onError args H Herr.
    unfold createCallTool, call, settle, bind, emit. simpl. rewrite H. simpl.
    rewrite Herr. reflexivity.
Qed.

(** C7 as stated fails on a result whose content array has no textual
    element: the described precedence falls through to the message, the
    code returns none. *)
Lemma getErrorDescription_content_shadows_message :
  getErrorDescriptionFromToolCall imageOnlyError = None
  /\ describedPrecedence imageOnlyError = Some "quota exceeded".
Proof. split; reflexivity. Qed.

Lemma getErrorDescription_precedence_witness :
  getErrorDescriptionFromToolCall (Js.Obj [("toolResult", Js.Str "boom")])
  = Some "boom"
  /\ getErrorDescriptionFromToolCall imageOnlyError = None
  /\ getErrorDescriptionFromToolCall (Js.Str "boom") = None.
Proof.
  split; [|split].
  - destruct (getErrorDescription_precedence (Js.Obj [("toolResult", Js.Str "boom")]))
      as (H & _).
    exact (H eq_refl).
  - destruct (getErrorDescription_precedence imageOnlyError) as (_ & H & _).
    exact (H eq_refl).
  - destruct (getErrorDescription_precedence (Js.Str "boom")) as (_ & _ & H & _).
    exact (H eq_refl).
Defined.

Example getErrorDescription_text_first :
  getErrorDescriptionFromToolCall
    (Js.Obj [("content", Js.Arr [Js.Null; Js.Obj [("type", Js.Str "text"); ("text", Js.Str "no such file")];
                                 Js.Obj [("text", Js.Str "second")]]);
             ("toolResult", Js.Str "ignored"); ("message", Js.Str "ignored")])
  = Some "no such file".
Proof. reflexivity. Qed.

Example getErrorDescription_error_object :
  getErrorDescriptionFromToolCall (Js.Error "McpError" "Request timed out")
  = Some "Request timed out".
Proof. reflexivity. Qed.

End ErrorDescriptionProps.

(** ** Address normalisation and connection *)

Module AddressProps.

Import McpUtils.

#[local] Arguments Regex.sameChar : simpl never.

(** A string in upper case, letter by letter. *)
Fixpoint uppercase (s : string) : string :=
  match s with
  | EmptyString => EmptyString
  | String c rest => String (Regex.canonicalize c) (uppercase rest)
  end.

(** [input] begins with [scheme], in any letter case. *)
Definition BeginsWith (scheme input : string) : Prop :=
  exists front rest,
    input = (front ++ rest)%string /\ uppercase front = uppercase scheme.

(** The rest of [s] after the prefix [p], compared without regard to case. *)
Fixpoint stripPrefix (p s : string) : option string :=
  match p with
  | EmptyString => Some s
  | String c p' =>
      match s with
      | String c' s' =>
          if Regex.sameChar true c c' then stripPrefix p' s' else None
      | EmptyString => None
      end
  end.

Definition startsWith (p s : string) : bool :=
  match stripPrefix p s with Some _ => true | None => false end.

Lemma stripPrefix_app (p q s : string) :
  stripPrefix (p ++ q) s
  = match stripPrefix p s with
    | Some r => stripPrefix q r
    | None => None
    end.
Proof.
  revert s. induction p as [|c p IH]; intros s; simpl; [reflexivity|].
  destruct s as [|c' s]; [reflexivity|].
  destruct (Regex.sameChar true c c'); [apply IH | reflexivity].
Qed.

Lemma stripPrefix_BeginsWith (p s r : string) :
  stripPrefix p s = Some r ->
  exists front, s = (front ++ r)%string /\ uppercase front = uppercase p.
Proof.
  revert s. induction p as [|c p IH]; intros s H; simpl in H.
  - injection H as ->. now exists EmptyString.
  - destruct s as [|c' s]; [discriminate|].
    destruct (Regex.sameChar true c c') eqn:E; [|discriminate].
    destruct (IH s H) as [front [-> Hup]].
    exists (String c' front). split; [reflexivity|].
    simpl. unfold Regex.sameChar in E. apply Ascii.eqb_eq in E.
    now rewrite Hup, E.
Qed.

Lemma BeginsWith_stripPrefix (p front rest : string) :
  uppercase front = uppercase p ->
  stripPrefix p (front ++ rest) = Some rest.
Proof.
  revert front. induction p as [|c p IH]; intros front H.
  - destruct front; [reflexivity | discriminate].
  - destruct front as [|c' front]; [discriminate|].
    simpl in H. injection H as Hc Hrest.
    simpl. unfold Regex.sameChar. rewrite Hc, Ascii.eqb_refl.
    now apply IH.
Qed.

Lemma startsWith_BeginsWith (p s : string) :
  startsWith p s = true <-> BeginsWith p s.
Proof.
  unfold startsWith, BeginsWith. split.
  - destruct (stripPrefix p s) as [r|] eqn:E; [|discriminate]. intros _.
    destruct (stripPrefix_BeginsWith _ _ _ E) as [front [H1 H2]].
    now exists front, r.
  - intros [front [rest [-> H]]]. now rewrite (BeginsWith_stripPrefix _ _ _ H).
Qed.

Lemma matchStart_literal (p s : string) :
  Regex.matchStart true (Regex.literal p) s
  = match stripPrefix p s with Some r => [r] | None => [] end.
Proof.
  revert s. induction p as [|c p IH]; intros s; simpl; [reflexivity|].
  destruct s as [|c' s]; [reflexivity|].
  destruct (Regex.sameChar true c c'); simpl; [|reflexivity].
  rewrite IH. now rewrite app_nil_r.
Qed.

Lemma matchStart_seq (r1 r2 : Regex.Regex) (s : string) :
  Regex.matchStart true (Regex.Seq r1 r2) s
  = flat_map (Regex.matchStart true r2) (Regex.matchStart true r1 s).
Proof. reflexivity. Qed.

Lemma matchStart_optional (r : Regex.Regex) (s : string) :
  Regex.matchStart true (Regex.Optional r) s = Regex.matchStart true r s ++ [s].
Proof. reflexivity. Qed.

Lemma matchStart_char (c : ascii) (s : string) :
  Regex.matchStart true (Regex.Char c) s
  = match stripPrefix (String c EmptyString) s with Some r => [r] | None => [] end.
Proof.
  destruct s as [|c' s]; simpl; [reflexivity|].
  now destruct (Regex.sameChar true c c').
Qed.

(** The pattern [/^https?:\/\//i] accepts exactly the strings that begin
    with one of the two schemes. *)
Lemma test_httpSchemePattern (input : string) :
  Regex.test true httpSchemePattern input
  = startsWith "http://" input || startsWith "https://" input.
Proof.
  unfold Regex.test, httpSchemePattern, startsWith.
  change "http://" with ("http" ++ "://")%string.
  change "https://" with ("http" ++ ("s" ++ "://"))%string.
  rewrite !stripPrefix_app, !matchStart_seq, matchStart_literal.
  destruct (stripPrefix "http" input) as [r1|]; [|reflexivity].
  cbn [flat_map]. rewrite app_nil_r, matchStart_seq, matchStart_optional.
  rewrite stripPrefix_app, matchStart_char, flat_map_app.
  cbn [flat_map]. rewrite app_nil_r, matchStart_literal.
  destruct (stripPrefix "s" r1) as [r2|]; cbn [flat_map app].
  - rewrite app_nil_r, matchStart_literal.
    destruct (stripPrefix "://" r2), (stripPrefix "://" r1); reflexivity.
  - destruct (stripPrefix "://" r1); reflexivity.
Qed.

Lemma test_httpSchemePattern_iff (input : string) :
  Regex.test true httpSchemePattern input = true
  <-> BeginsWith "http://" input \/ BeginsWith "https://" input.
Proof.
  rewrite test_httpSchemePattern, orb_true_iff, !startsWith_BeginsWith.
  reflexivity.
Qed.

Lemma length_append (a b : string) :
  String.length (a ++ b) = String.length a + String.length b.
Proof. induction a as [|c a IH]; simpl; [reflexivity | now rewrite IH]. Qed.

Lemma prefixed_differs (input : string) : ("https://" ++ input)%string <> input.
Proof.
  intros H. apply (f_equal String.length) in H.
  rewrite length_append in H. simpl in H. lia.
Qed.

Lemma withProtocol_explicit (input : string) :
  BeginsWith "http://" input \/ BeginsWith "https://" input ->
  withProtocol input = input.
Proof.
  intros H. apply test_httpSchemePattern_iff in H.
  unfold withProtocol. now rewrite H.
Qed.

Lemma withProtocol_prefixed (input : string) :
  withProtocol input = ("https://" ++ input)%string
  <-> ~ BeginsWith "http://" input /\ ~ BeginsWith "https://" input.
Proof.
  unfold withProtocol.
  destruct (Regex.test true httpSchemePattern input) eqn:E; simpl.
  - split.
    + intros H. symmetry in H. now apply prefixed_differs in H.
    + intros [H1 H2]. apply test_httpSchemePattern_iff in E. tauto.
  - split; [|reflexivity]. intros _.
    split; intros H;
      assert (T : Regex.test true httpSchemePattern input = true)
        by (apply test_httpSchemePattern_iff; tauto);
      congruence.
Qed.

Example withProtocol_bare : withProtocol "mcp.example.com/sse" = "https://mcp.example.com/sse".
Proof. reflexivity. Qed.

Example withProtocol_insecure : withProtocol "HtTp://localhost:3001/sse" = "HtTp://localhost:3001/sse".
Proof. reflexivity. Qed.

Example withProtocol_other_scheme : withProtocol "ws://host/sse" = "https://ws://host/sse".
Proof. reflexivity. Qed.

(** A stand-in for the platform's URL parser, for the examples: it refuses
    an address with an empty host or with a space in it. *)
Fixpoint containsSpace (s : string) : bool :=
  match s with
  | EmptyString => false
  | String c rest => Ascii.eqb c " " || containsSpace rest
  end.

Definition invalidUrl : Js.value := Js.Error "TypeError" "Invalid URL".

Definition sampleNewURL (s : string) : string + Js.value :=
  match stripPrefix "https://" s, stripPrefix "http://" s with
  | Some EmptyString, _ => inr invalidUrl
  | _, Some EmptyString => inr invalidUrl
  | _, _ => if containsSpace s then inr invalidUrl else inl s
  end.

(** A server that refuses the handshake on every address but one. *)
Definition sampleConnect (url : string) (headers : option unit) : Completion unit :=
  if url =? "http://localhost:3001/sse" then Normal tt
  else Throw (Js.Error "Error" "SSE error: Non-200 status code (401)").

Section ConnectionFacts.

Variable URL : Type.
Variable newURL : string -> URL + Js.value.
Variable Headers : Type.
Variable connect : URL -> option Headers -> Completion unit.

Lemma normalizeAndValidateUrl_unfold (input : string) :
  normalizeAndValidateUrl URL newURL input
  = safeCreateUrl URL newURL (withProtocol input).
Proof.
  unfold normalizeAndValidateUrl.
  now destruct (safeCreateUrl URL newURL (withProtocol input)).
Qed.

Lemma connectMcpClient_invalid (headers : option Headers) (sseEndpoint name : string)
    (version : Z) (e : Js.value) :
  newURL (withProtocol sseEndpoint) = inr e ->
  connectMcpClient URL newURL Headers connect headers sseEndpoint name version
  = ([], Normal (Err (invalid_url e))).
Proof.
  intros H. unfold connectMcpClient.
  rewrite normalizeAndValidateUrl_unfold. unfold safeCreateUrl. now rewrite H.
Qed.

Lemma connectMcpClient_valid (headers : option Headers) (sseEndpoint name : string)
    (version : Z) (url : URL) :
  newURL (withProtocol sseEndpoint) = inl url ->
  connectMcpClient URL newURL Headers connect headers sseEndpoint name version
  = ([NewSSEClientTransport URL Headers url headers;
      NewClient URL Headers name version;
      ClientConnect URL Headers url],
     match connect url headers with
     | Normal _ =>
         Normal (Ok {| clientName := name; clientVersion := version; endpoint := url |})
     | Throw e => Normal (Err (connection e))
     | Diverged => Diverged
     end).
Proof.
  intros H. unfold connectMcpClient.
  rewrite normalizeAndValidateUrl_unfold. unfold safeCreateUrl. rewrite H.
  unfold bind, emit, call, ret, tryCatch. simpl.
  destruct (connect url headers) as [[]| |]; reflexivity.
Qed.

(** C8. An address without a scheme is prefixed with [https://] before it
    is validated.  When the address, prefixed or not, does not parse,
    [connectMcpClient] returns an [invalid_url] error and nothing reaches
    the network: no transport is built and no connect is issued.  On a
    valid address it builds the transport and the client on the parsed
    address and connects; a failed handshake is returned as a [connection]
    error.  No error is thrown on any path, and a connect is issued only
    on an address that parsed. *)
Theorem connectMcpClient_outcomes :
  forall (headers : option Headers) (sseEndpoint name : string) (version : Z),
    let run := connectMcpClient URL newURL Headers connect headers sseEndpoint name version in
    (~ BeginsWith "http://" sseEndpoint /\ ~ BeginsWith "https://" sseEndpoint ->
       normalizeAndValidateUrl URL newURL sseEndpoint
       = safeCreateUrl URL newURL ("https://" ++ sseEndpoint))
    /\ (forall e, newURL (withProtocol sseEndpoint) = inr e ->
          run = ([], Normal (Err (invalid_url e))))
    /\ (forall url, newURL (withProtocol sseEndpoint) = inl url ->
          trace run = [NewSSEClientTransport URL Headers url headers;
                       NewClient URL Headers name version;
                       ClientConnect URL Headers url]
          /\ (forall e, connect url headers = Throw e ->
                completion run = Normal (Err (connection e)))
          /\ (connect url headers = Normal tt ->
                completion run
                = Normal (Ok {| clientName := name; clientVersion := version;
                                endpoint := url |})))
    /\ (forall e, completion run <> Throw e)
    /\ (forall url, In (ClientConnect URL Headers url) (trace run) ->
          newURL (withProtocol sseEndpoint) = inl url).
Proof.
  intros headers sseEndpoint name version run.
  split; [|split; [|split; [|split]]].
  - intros H. rewrite normalizeAndValidateUrl_unfold.
    apply withProtocol_prefixed in H. now rewrite H.
  - intros e H. now apply connectMcpClient_invalid.
  - intros url H. unfold run. rewrite (connectMcpClient_valid _ _ _ _ _ H).
    split; [reflexivity|]. split.
    + intros e He. simpl. now rewrite He.
    + intros Hc. simpl. now rewrite Hc.
  - intros e. unfold run.
    destruct (newURL (withProtocol sseEndpoint)) as [url|e'] eqn:H.
    + rewrite (connectMcpClient_valid _ _ _ _ _ H). simpl.
      destruct (connect url headers); discriminate.
    + rewrite (connectMcpClient_invalid _ _ _ _ _ H). discriminate.
  - intros url Hin. unfold run in Hin.
    destruct (newURL (withProtocol sseEndpoint)) as [url'|e'] eqn:H.
    + rewrite (connectMcpClient_valid _ _ _ _ _ H) in Hin. simpl in Hin.
      destruct Hin as [Hin | [Hin | [Hin | []]]]; try discriminate.
      now injection Hin as ->.
    + rewrite (connectMcpClient_invalid _ _ _ _ _ H) in Hin. destruct Hin.
Qed.

(** C10. Normalisation leaves an explicit scheme alone: an address that
    begins with [http://] or [https://], in any letter case, is parsed as
    it is written (an [http://] address is not turned into [https://]);
    the prefix [https://] is added exactly when the address begins with
    neither. *)
Theorem normalizeAndValidateUrl_keeps_explicit_scheme :
  forall input : string,
    (BeginsWith "http://" input \/ BeginsWith "https://" input ->
       withProtocol input = input
       /\ normalizeAndValidateUrl URL newURL input = safeCreateUrl URL newURL input)
    /\ (withProtocol input = ("https://" ++ input)%string
        <-> ~ BeginsWith "http://" input /\ ~ BeginsWith "https://" input).
Proof.
  intros input. split.
  - intros H. pose proof (withProtocol_explicit input H) as E.
    split; [exact E|]. now rewrite normalizeAndValidateUrl_unfold, E.
  - apply withProtocol_prefixed.
Qed.

End ConnectionFacts.

Lemma insecure_BeginsWith : BeginsWith "http://" "HTTP://localhost:3001/sse".
Proof. apply startsWith_BeginsWith. reflexivity. Qed.

Lemma bare_not_BeginsWith (scheme : string) :
  startsWith scheme "mcp.example.com/sse" = false ->
  ~ BeginsWith scheme "mcp.example.com/sse".
Proof. intros H B. apply startsWith_BeginsWith in B. congruence. Qed.

Lemma connectMcpClient_outcomes_witness :
  connectMcpClient string sampleNewURL unit sampleConnect None "" "mcpClientTool" 1
  = ([], Normal (Err (invalid_url invalidUrl)))
  /\ completion (connectMcpClient string sampleNewURL unit sampleConnect None
                   "mcp.example.com/sse" "mcpClientTool" 1)
     = Normal (Err (connection (Js.Error "Error" "SSE error: Non-200 status code (401)")))
  /\ normalizeAndValidateUrl string sampleNewURL "mcp.example.com/sse"
     = Ok "https://mcp.example.com/sse".
Proof.
  split; [|split].
  - destruct (connectMcpClient_outcomes string sampleNewURL unit sampleConnect
                None "" "mcpClientTool" 1) as (_ & H & _).
    exact (H invalidUrl eq_refl).
  - destruct (connectMcpClient_outcomes string sampleNewURL unit sampleConnect
                None "mcp.example.com/sse" "mcpClientTool" 1) as (_ & _ & H & _).
    destruct (H "https://mcp.example.com/sse" eq_refl) as (_ & Hfail & _).
    exact (Hfail _ eq_refl).
  - destruct (connectMcpClient_outcomes string sampleNewURL unit sampleConnect
                None "mcp.example.com/sse" "mcpClientTool" 1) as (H & _).
    apply H. split; apply bare_not_BeginsWith; reflexivity.
Defined.

Lemma normalizeAndValidateUrl_keeps_explicit_scheme_witness :
  withProtocol "HTTP://localhost:3001/sse" = "HTTP://localhost:3001/sse"
  /\ normalizeAndValidateUrl string sampleNewURL "HTTP://localhost:3001/sse"
     = Ok "HTTP://localhost:3001/sse".
Proof.
  destruct (normalizeAndValidateUrl_keeps_explicit_scheme string sampleNewURL
              "HTTP://localhost:3001/sse") as (H & _).
  exact (H (or_introl insecure_BeginsWith)).
Defined.

End AddressProps.

(** ** Schema conversion *)

Module SchemaProps.

Import McpUtils.

(** A stand-in for the JavaScript runtime and for the converter of
    [@utils/schemaParsing], for the examples: a schema with a [default] and
    a schema of a type without a parser end in [parseDefault], a [$ref] in
    [parseRef], and a boolean schema is [z.any()] or [z.never()]. *)
Definition sampleToString (v : Js.value) : string := "[object Object]".
Definition sampleStringify (v : Js.value) : string := "{...}".

Definition sampleConvert (schema : Js.value) : Completion Zod.ZodType :=
  match schema with
  | Js.Bool true => Normal Zod.ZodAny
  | Js.Bool false => Normal Zod.ZodNever
  | _ =>
      if Js.has_property "$ref" schema then
        JsonSchemaToZod.parseRef sampleToString schema {| JsonSchemaToZod.path := [] |}
      else if Js.has_property "default" schema then
        JsonSchemaToZod.parseDefault sampleToString sampleStringify schema
      else
        match Js.get "type" schema with
        | Js.Str t =>
            if t =? "string" then Normal Zod.ZodString
            else if t =? "number" then Normal Zod.ZodNumber
            else if t =? "boolean" then Normal Zod.ZodBoolean
            else JsonSchemaToZod.parseDefault sampleToString sampleStringify schema
        | _ => JsonSchemaToZod.parseDefault sampleToString sampleStringify schema
        end
  end.

(** A converter that falls back to [z.any()] on what it does not support. *)
Definition lenientConvert (schema : Js.value) : Completion Zod.ZodType :=
  match sampleConvert schema with
  | Normal z => Normal z
  | _ => Normal Zod.ZodAny
  end.

Definition searchTool : McpTool :=
  {| name := "search"; description := Some "Search the index";
     inputSchema := Js.Obj [("type", Js.Str "string")] |}.

Definition defaultedTool : McpTool :=
  {| name := "greet"; description := None;
     inputSchema := Js.Obj [("type", Js.Str "string"); ("default", Js.Str "x")] |}.

Definition unconstrainedTool : McpTool :=
  {| name := "ping"; description := None; inputSchema := Js.Obj [] |}.

(** [s] occurs in [message]. *)
Definition Mentions (message s : string) : Prop :=
  exists before after, message = (before ++ s ++ after)%string.

Lemma append_assoc (a b c : string) :
  ((a ++ b) ++ c)%string = (a ++ (b ++ c))%string.
Proof. induction a as [|x a IH]; simpl; [reflexivity | now rewrite IH]. Qed.

Section ConversionFacts.

Variable convertJsonSchemaToZod : Js.value -> Completion Zod.ZodType.
Variable JSON_stringify : Js.value -> string.
Variable Func : Type.

Let convertSchema := convertToolSchema convertJsonSchemaToZod JSON_stringify.
Let toDynamicTool := mcpToolToDynamicTool convertJsonSchemaToZod JSON_stringify Func.

Lemma isTrivialOriginalSchema_iff (inputSchema : Js.value) :
  isTrivialOriginalSchema inputSchema = true
  <-> Js.truthy inputSchema = false
      \/ Js.keys_length inputSchema = 0
      \/ inputSchema = Js.Bool true.
Proof.
  unfold isTrivialOriginalSchema.
  rewrite !orb_true_iff, negb_true_iff, Nat.eqb_eq.
  split.
  - intros [[H | H] | H]; auto.
    destruct inputSchema as [| |[|]| | | | |]; try discriminate. auto.
  - intros [H | [H | H]]; auto. subst. auto.
Qed.

Lemma failedToPrepare_mentions (tool : McpTool) (cls message : string) :
  Mentions (failedToPrepareMessage JSON_stringify tool (Js.Error cls message)) message.
Proof.
  unfold Mentions, failedToPrepareMessage.
  cbn [Js.get String.eqb Ascii.eqb Bool.eqb].
  exists ("Failed to prepare tool " ++ JsonSchemaToZod.dquote ++ name tool
          ++ JsonSchemaToZod.dquote ++ ": Schema conversion error. ")%string.
  exists (". Input schema: " ++ JSON_stringify (inputSchema tool))%string.
  now rewrite !append_assoc.
Qed.

(** C5, as the code has it.  When the conversion of a tool's schema yields
    the accept-anything validator [z.any()] and the schema is not trivial
    (trivial: falsy, as an absent schema is; without keys, as the empty
    object is; or [true]), the [try] block raises an
    [UnsupportedSchemaError], which the [catch] block replaces: what
    [mcpToolToDynamicTool] throws is a [NodeOperationError] whose message
    carries that of the [UnsupportedSchemaError], and no tool is returned.
    When the schema is trivial, the tool is returned with the
    accept-anything validator and without error. *)
Theorem mcpToolToDynamicTool_any_validator :
  forall (tool : McpTool) (onCallTool : Func) (zodSchema : Zod.ZodType),
    convertJsonSchemaToZod (inputSchema tool) = Normal zodSchema ->
    Zod.typeName zodSchema = "ZodAny" ->
    (isTrivialOriginalSchema (inputSchema tool) = false ->
       let unsupported :=
         Js.Error "UnsupportedSchemaError"
           (convertedToAnyMessage JSON_stringify tool) in
       convertSchema tool = Throw unsupported
       /\ toDynamicTool tool onCallTool
          = Throw (Js.Error "NodeOperationError"
                     (failedToPrepareMessage JSON_stringify tool unsupported))
       /\ Mentions (failedToPrepareMessage JSON_stringify tool unsupported)
                   (convertedToAnyMessage JSON_stringify tool))
    /\ (isTrivialOriginalSchema (inputSchema tool) = true ->
          toDynamicTool tool onCallTool
          = Normal {| Langchain.name := name tool;
                      Langchain.description :=
                        match description tool with Some d => d | None => "" end;
                      Langchain.schema := zodSchema;
                      Langchain.func := onCallTool;
                      Langchain.isFromToolkit := true |}
          /\ forall v, Zod.accepts zodSchema v = true).
Proof.
  intros tool onCallTool zodSchema Hconv Hany.
  assert (Hz : zodSchema = Zod.ZodAny).
  { destruct zodSchema; simpl in Hany; try discriminate. reflexivity. }
  subst zodSchema.
  unfold toDynamicTool, convertSchema, mcpToolToDynamicTool, convertToolSchema.
  rewrite Hconv. simpl.
  split; intros Htrivial; rewrite Htrivial; simpl.
  - split; [reflexivity|]. split; [reflexivity|].
    apply failedToPrepare_mentions.
  - split; reflexivity.
Qed.

(** An [UnsupportedSchemaError] of the converter itself is rethrown the
    same way; any other error passes unchanged. *)
Lemma mcpToolToDynamicTool_converter_error (tool : McpTool) (onCallTool : Func)
    (e : Js.value) :
  convertJsonSchemaToZod (inputSchema tool) = Throw e ->
  toDynamicTool tool onCallTool
  = if instanceof e "UnsupportedSchemaError"
    then Throw (Js.Error "NodeOperationError" (failedToPrepareMessage JSON_stringify tool e))
    else Throw e.
Proof.
  intros H. unfold toDynamicTool, mcpToolToDynamicTool, convertToolSchema.
  now rewrite H.
Qed.

End ConversionFacts.

Example isTrivialOriginalSchema_examples :
  isTrivialOriginalSchema Js.Undefined = true
  /\ isTrivialOriginalSchema (Js.Obj []) = true
  /\ isTrivialOriginalSchema (Js.Bool true) = true
  /\ isTrivialOriginalSchema (Js.Bool false) = true
  /\ isTrivialOriginalSchema (Js.Obj [("type", Js.Str "string")]) = false.
Proof. repeat split. Qed.

(** C5 as stated fails on the error class: for a schema with a [default]
    that the converter turned into [z.any()], what the function throws is
    a [NodeOperationError], not an [UnsupportedSchemaError]. *)
Lemma mcpToolToDynamicTool_throws_NodeOperationError :
  lenientConvert (inputSchema defaultedTool) = Normal Zod.ZodAny
  /\ isTrivialOriginalSchema (inputSchema defaultedTool) = false
  /\ exists message,
       mcpToolToDynamicTool lenientConvert sampleStringify unit defaultedTool tt
       = Throw (Js.Error "NodeOperationError" message)
       /\ instanceof (Js.Error "NodeOperationError" message) "UnsupportedSchemaError"
          = false.
Proof.
  split; [reflexivity|]. split; [reflexivity|].
  eexists. split; reflexivity.
Qed.

Lemma mcpToolToDynamicTool_any_validator_witness :
  (exists message,
     mcpToolToDynamicTool lenientConvert sampleStringify unit defaultedTool tt
     = Throw (Js.Error "NodeOperationError" message))
  /\ mcpToolToDynamicTool lenientConvert sampleStringify unit unconstrainedTool tt
     = Normal {| Langchain.name := "ping"; Langchain.description := "";
                 Langchain.schema := Zod.ZodAny; Langchain.func := tt;
                 Langchain.isFromToolkit := true |}.
Proof.
  split.
  - destruct (mcpToolToDynamicTool_any_validator lenientConvert sampleStringify unit
                defaultedTool tt Zod.ZodAny eq_refl eq_refl) as (H & _).
    destruct (H eq_refl) as (_ & Hthrow & _).
    eexists. exact Hthrow.
  - destruct (mcpToolToDynamicTool_any_validator lenientConvert sampleStringify unit
                unconstrainedTool tt Zod.ZodAny eq_refl eq_refl) as (_ & H).
    destruct (H eq_refl) as (Hret & _).
    exact Hret.
Defined.

End SchemaProps.

(** ** Self-reference *)

Module RefProps.

Import JsonSchemaToZod.

(** The schema that is a root self-reference and nothing else. *)
Definition selfReference : Js.value := Js.Obj [("$ref", Js.Str "#")].

(** A root schema that refers to itself at one position: a list of
    strings, each cell holding a [value] and the [next] cell. *)
Definition cellSchema : Js.value :=
  Js.Obj [("type", Js.Str "object");
          ("properties",
           Js.Obj [("value", Js.Obj [("type", Js.Str "string")]);
                   ("next", selfReference)])].

(** [parseRef] on a self-reference returns at once, with a lazy validator:
    nothing of the root schema is compiled before a value is parsed. *)
Lemma parseRef_self_reference_is_lazy (toStringOther : Js.value -> string)
    (jsonSchema : Js.value) (refs : Refs) :
  isSelfReference jsonSchema = true ->
  exists getter,
    parseRef toStringOther jsonSchema refs = Normal (Zod.ZodLazy getter)
    /\ Zod.typeName (Zod.ZodLazy getter) = "ZodLazy".
Proof.
  intros H. unfold parseRef. rewrite H. eexists. split; reflexivity.
Qed.

(** Any other target is refused, with a plain [Error]. *)
Lemma parseRef_other_target (toStringOther : Js.value -> string)
    (jsonSchema : Js.value) (refs : Refs) :
  isSelfReference jsonSchema = false ->
  exists message,
    parseRef toStringOther jsonSchema refs = Throw (Js.Error "Error" message).
Proof.
  intros H. unfold parseRef. rewrite H. eexists. reflexivity.
Qed.

(** C4, at the input where the code departs from it.  The validator that
    [parseRef] builds for the self-reference inside [cellSchema] is lazy,
    and when invoked it resolves to [z.any()]: it accepts every value at
    the referenced position, the number 42 and a cell whose [value] is
    not a string among them, whatever the root schema is. *)
Theorem parseRef_self_reference_accepts_anything :
  forall (toStringOther : Js.value -> string) (refs : Refs),
  exists getter,
    parseRef toStringOther selfReference refs = Normal (Zod.ZodLazy getter)
    /\ getter tt = Zod.ZodAny
    /\ (forall v, Zod.accepts (Zod.ZodLazy getter) v = true)
    /\ Zod.accepts (Zod.ZodLazy getter) (Js.Num 42) = true
    /\ Zod.accepts (Zod.ZodLazy getter) (Js.Obj [("value", Js.Num 7)]) = true.
Proof.
  intros toStringOther refs. eexists.
  split; [reflexivity|]. repeat split.
Qed.

Example parseRef_in_cellSchema :
  exists getter,
    parseRef SchemaProps.sampleToString (Js.get "next" (Js.get "properties" cellSchema))
      {| path := [Js.Str "properties"; Js.Str "next"] |}
    = Normal (Zod.ZodLazy getter)
    /\ Zod.accepts (Zod.ZodLazy getter) (Js.Num 42) = true.
Proof. eexists. split; reflexivity. Qed.

(** The lazy wrapper is not [z.any()] by name, so the check of
    [mcpToolToDynamicTool] lets it pass. *)
Example self_reference_tool_is_returned :
  exists tool,
    McpUtils.mcpToolToDynamicTool SchemaProps.sampleConvert SchemaProps.sampleStringify unit
      {| McpUtils.name := "walk"; McpUtils.description := None;
         McpUtils.inputSchema := selfReference |} tt
    = Normal tool
    /\ forall v, Zod.accepts (Langchain.schema tool) v = true.
Proof. eexists. split; reflexivity. Qed.

End RefProps.

(** ** The toolkit builder *)

Module BuilderProps.

Import McpUtils ToolkitBuilder.

Section BuildFacts.

Variable convertJsonSchemaToZod : Js.value -> Completion Zod.ZodType.
Variable JSON_stringify : Js.value -> string.
Variable Func : Type.
Variable invoker : McpTool -> Func.

Let convertSchema := convertToolSchema convertJsonSchemaToZod JSON_stringify.
Let toDynamicTool := mcpToolToDynamicTool convertJsonSchemaToZod JSON_stringify Func.















End BuildFacts.




End BuilderProps.

(** ** Traces of effectful code *)

Module EffFacts.

(** Every event a computation leaves satisfies [P]. *)
Definition Emits {Ev A} (P : Ev -> Prop) (m : Eff Ev A) : Prop :=
  Forall P (trace m).

Lemma trace_bind {Ev A B} (m : Eff Ev A) (k : A -> Eff Ev B) :
  trace (bind m k)
  = trace m ++ match completion m with
               | Normal a => trace (k a)
               | _ => []
               end.
Proof.
  unfold trace, completion, bind.
  destruct (snd m); simpl; now rewrite ?app_nil_r.
Qed.

Lemma completion_bind {Ev A B} (m : Eff Ev A) (k : A -> Eff Ev B) :
  completion (bind m k)
  = match completion m with
    | Normal a => completion (k a)
    | Throw e => Throw e
    | Diverged => Diverged
    end.
Proof. unfold completion, bind. now destruct (snd m). Qed.

Lemma trace_tryFinally {Ev A} (m : Eff Ev A) (f : Eff Ev unit) :
  trace (tryFinally m f)
  = trace m ++ match completion m with
               | Diverged => []
               | _ => trace f
               end.
Proof.
  unfold trace, completion, tryFinally.
  destruct (snd m); simpl; now rewrite ?app_nil_r.
Qed.

Lemma completion_tryFinally {Ev A} (m : Eff Ev A) (f : Eff Ev unit) :
  completion (tryFinally m f)
  = match completion m with
    | Diverged => Diverged
    | c => match completion f with
           | Normal _ => c
           | Throw e => Throw e
           | Diverged => Diverged
           end
    end.
Proof.
  unfold completion, tryFinally. destruct (snd m) eqn:E; simpl; auto.
Qed.

Lemma trace_tryCatch {Ev A} (m : Eff Ev A) (h : Js.value -> Eff Ev A) :
  trace (tryCatch m h)
  = trace m ++ match completion m with
               | Throw e => trace (h e)
               | _ => []
               end.
Proof.
  unfold trace, completion, tryCatch.
  destruct (snd m); simpl; now rewrite ?app_nil_r.
Qed.

Lemma Emits_bind {Ev A B} (P : Ev -> Prop) (m : Eff Ev A) (k : A -> Eff Ev B) :
  Emits P m -> (forall a, Emits P (k a)) -> Emits P (bind m k).
Proof.
  unfold Emits. intros Hm Hk. rewrite trace_bind. apply Forall_app. split; [exact Hm|].
  destruct (completion m); [apply Hk | constructor | constructor].
Qed.

Lemma Emits_tryCatch {Ev A} (P : Ev -> Prop) (m : Eff Ev A) (h : Js.value -> Eff Ev A) :
  Emits P m -> (forall e, Emits P (h e)) -> Emits P (tryCatch m h).
Proof.
  unfold Emits. intros Hm Hh. rewrite trace_tryCatch. apply Forall_app. split; [exact Hm|].
  destruct (completion m); [constructor | apply Hh | constructor].
Qed.

Lemma Emits_settle {Ev A} (P : Ev -> Prop) (m : Eff Ev A) :
  Emits P m -> Emits P (settle m).
Proof. intros H. exact H. Qed.

Lemma Emits_silent {Ev A} (P : Ev -> Prop) (m : Eff Ev A) :
  trace m = [] -> Emits P m.
Proof. unfold Emits. intros ->. constructor. Qed.

Lemma Emits_call {Ev A} (P : Ev -> Prop) (ev : Ev) (outcome : Completion A) :
  P ev -> Emits P (call ev outcome).
Proof. intros H. unfold Emits, call, trace. simpl. now constructor. Qed.

Lemma Emits_emit {Ev} (P : Ev -> Prop) (ev : Ev) : P ev -> Emits P (emit ev).
Proof. intros H. unfold Emits, emit, trace. simpl. now constructor. Qed.

Lemma trace_getMember {Ev} (k : string) (v : Js.value) :
  trace (@getMember Ev k v) = [].
Proof. unfold getMember. now destruct (Js.nullish v). Qed.

Lemma settles_bind {Ev A B} (m : Eff Ev A) (k : A -> Eff Ev B) :
  completion m <> Diverged -> (forall a, completion (k a) <> Diverged) ->
  completion (bind m k) <> Diverged.
Proof.
  intros Hm Hk. rewrite completion_bind.
  destruct (completion m); [apply Hk | discriminate | contradiction].
Qed.

End EffFacts.

(** ** The Tools Agent executor *)

Module AgentProps.

Import ToolsAgent EffFacts.

(** The three phases of an execution. *)
Definition isSetup {Tool} (ev : Event Tool) : bool :=
  match ev with
  | GetOptionalOutputParser | GetTools | GetOptionalMemory | GetChatModel => true
  | _ => false
  end.

Definition isItemWork {Tool} (ev : Event Tool) : bool :=
  match ev with
  | CreateToolCallingAgent _ _ | AgentExecutorFromAgentAndTools _ _
  | ExecutorInvoke _ | Sleep _ => true
  | _ => false
  end.

Definition isClose {Tool} (ev : Event Tool) : bool :=
  match ev with
  | Close _ => true
  | _ => false
  end.

Definition isGetTools {Tool} (ev : Event Tool) : bool :=
  match ev with
  | GetTools => true
  | _ => false
  end.

(** How often [getTools] is called in a trace. *)
Definition countGetTools {Tool} (tr : list (Event Tool)) : nat :=
  List.length (filter isGetTools tr).

(** Work on an item, with [tools] wherever tools are handed over. *)
Definition ItemWorkWith {Tool} (tools : list Tool) (ev : Event Tool) : Prop :=
  match ev with
  | CreateToolCallingAgent _ given | AgentExecutorFromAgentAndTools _ given =>
      given = tools
  | ExecutorInvoke _ | Sleep _ => True
  | _ => False
  end.

(** The call of one of the close functions at positions [k .. k + n - 1]. *)
Definition CloseWithin {Tool} (k n : nat) (ev : Event Tool) : Prop :=
  exists j, ev = Close j /\ k <= j < k + n.

(** A close function that settles the way a connection's [close] does:
    it resolves, or it rejects with a value that is not [null] or
    [undefined]. *)
Definition closerSettles (close : Closer) : Prop :=
  close = Normal tt \/ exists e, close = Throw e /\ Js.nullish e = false.

Lemma ItemWorkWith_phase {Tool} (tools : list Tool) (ev : Event Tool) :
  ItemWorkWith tools ev -> isItemWork ev = true /\ isGetTools ev = false.
Proof. destruct ev; simpl; intros H; try contradiction; now split. Qed.

Lemma CloseWithin_phase {Tool} (k n : nat) (ev : Event Tool) :
  CloseWithin k n ev -> isClose ev = true /\ isGetTools ev = false.
Proof. intros [j [-> _]]. now split. Qed.

Lemma countGetTools_app {Tool} (a b : list (Event Tool)) :
  countGetTools (a ++ b) = countGetTools a + countGetTools b.
Proof. unfold countGetTools. now rewrite filter_app, length_app. Qed.

Lemma countGetTools_none {Tool} (P : Event Tool -> Prop) (l : list (Event Tool)) :
  (forall ev, P ev -> isGetTools ev = false) ->
  Forall P l -> countGetTools l = 0.
Proof.
  intros HP HF. unfold countGetTools.
  induction HF as [|ev l Hev _ IH]; [reflexivity|].
  simpl. now rewrite (HP ev Hev).
Qed.

Lemma filter_isClose_calls {Tool} (k n : nat) :
  filter isClose (map (@Close Tool) (seq k n)) = map Close (seq k n).
Proof.
  revert k. induction n as [|n IH]; intros k; [reflexivity|].
  simpl. now rewrite IH.
Qed.

(** An execution that ends before the [try] statement is entered. *)
Ltac ends_in_setup :=
  simpl; split; [reflexivity|]; split;
  [ eexists _, [], []; split; [rewrite !app_nil_r; reflexivity|];
    repeat constructor
  | split;
    [ intros ? ? [H | H]; simpl in H; intuition discriminate
    | intros ? H; simpl in H; intuition discriminate ] ].

Section ExecutionFacts.

Variables Item Tool Response Json : Type.
Variable env : Env Item Tool Response Json.

Lemma runItem_emits (tools : list Tool) (itemIndex : Z) :
  Emits (ItemWorkWith tools) (runItem env tools itemIndex).
Proof.
  unfold runItem. destruct (getPromptInputByType env itemIndex).
  - apply Emits_bind; [now apply Emits_silent|]. intros _.
    apply Emits_bind; [now apply Emits_emit|]. intros _.
    apply Emits_bind; [now apply Emits_emit|]. intros _.
    now apply Emits_call.
  - now apply Emits_silent.
Qed.

Lemma runBatch_emits (tools : list Tool) (i k : Z) (batch : list Item) :
  Emits (ItemWorkWith tools) (runBatch env tools i k batch).
Proof.
  revert k. induction batch as [|item rest IH]; intros k; simpl.
  - now apply Emits_silent.
  - apply Emits_bind; [apply Emits_settle, runItem_emits|]. intros r.
    apply Emits_bind; [apply IH|]. intros rs. now apply Emits_silent.
Qed.

Lemma processResults_silent (memory outputParser : bool) (i index : Z)
    (batchResults : list (Settled Response)) (returnData : list (ExecutionData Json)) :
  trace (processResults env memory outputParser i index batchResults returnData) = [].
Proof.
  revert index returnData.
  induction batchResults as [|result rest IH]; intros index returnData; simpl;
    [reflexivity|].
  rewrite trace_bind.
  assert (Hstep : forall m : Eff (Event Tool) (list (ExecutionData Json)),
             trace m = [] ->
             trace m ++ match completion m with
                        | Normal a => trace (processResults env memory outputParser
                                               i (index + 1) rest a)
                        | _ => []
                        end = []).
  { intros m ->. destruct (completion m); simpl; auto. }
  apply Hstep.
  destruct result as [response | error].
  - rewrite trace_bind.
    destruct (memory && outputParser); simpl;
      [destruct (parseOutput env response)|]; reflexivity.
  - destruct (continueOnFail env); [|reflexivity].
    rewrite trace_bind, trace_getMember. simpl.
    destruct (completion (getMember "message" error)); reflexivity.
Qed.

Lemma batchLoop_emits (fuel : nat) (tools : list Tool) (memory outputParser : bool)
    (i : Z) (returnData : list (ExecutionData Json)) :
  Emits (ItemWorkWith tools)
        (batchLoop env fuel tools memory outputParser i returnData).
Proof.
  revert i returnData. induction fuel as [|fuel IH]; intros i returnData; simpl.
  - destruct (i <? _)%Z; now apply Emits_silent.
  - destruct (i <? _)%Z; [|now apply Emits_silent].
    apply Emits_bind; [apply runBatch_emits|]. intros results.
    apply Emits_bind; [apply Emits_silent, processResults_silent|]. intros returnData'.
    apply Emits_bind; [|intros _; apply IH].
    destruct (_ && _)%bool; [now apply Emits_emit | now apply Emits_silent].
Qed.

Lemma closeAll_emits (k : nat) (closers : list Closer) :
  Emits (CloseWithin (Tool := Tool) k (List.length closers)) (closeAll k closers).
Proof.
  revert k. induction closers as [|close rest IH]; intros k; simpl.
  - now apply Emits_silent.
  - apply Emits_bind.
    + apply Emits_tryCatch.
      * apply Emits_call. exists k. split; [reflexivity | lia].
      * intros e. apply Emits_bind; [apply Emits_silent, trace_getMember|].
        intros _. now apply Emits_silent.
    + intros _. specialize (IH (S k)).
      unfold Emits in *. eapply Forall_impl; [|exact IH].
      intros ev [j [-> Hj]]. exists j. split; [reflexivity | lia].
Qed.

(** When every close function settles, each is called once, in order, and
    the block completes normally. *)
Lemma closeAll_calls_each_once (k : nat) (closers : list Closer) :
  (forall close, In close closers -> closerSettles close) ->
  closeAll (Tool := Tool) k closers
  = (map Close (seq k (List.length closers)), Normal tt).
Proof.
  revert k. induction closers as [|close rest IH]; intros k Hall; [reflexivity|].
  simpl. rewrite (IH (S k)) by (intros c Hc; apply Hall; now right).
  destruct (Hall close (or_introl eq_refl)) as [-> | [e [-> He]]].
  - reflexivity.
  - unfold tryCatch, call, bind, getMember. simpl. rewrite He. reflexivity.
Qed.

(** The run of the executor, call by call, up to the [try] statement. *)
Definition guarded (fuel : nat) (tools : list Tool) (closers : list Closer)
    (memory outputParser : bool) : Eff (Event Tool) (list (ExecutionData Json)) :=
  tryFinally (batchLoop env fuel tools memory outputParser 0 [])
             (closeAll 0 closers).

Lemma toolsAgentExecute_trace (fuel : nat) :
  trace (toolsAgentExecute env fuel)
  = GetOptionalOutputParser ::
    match getOptionalOutputParser env with
    | Normal outputParser =>
        GetTools ::
        match getTools env with
        | Normal (Some result) =>
            match tools result, closeFunctions result with
            | inl tl, inl closers =>
                GetOptionalMemory ::
                match getOptionalMemory env with
                | Normal memory =>
                    GetChatModel ::
                    match getChatModel env with
                    | Normal _ => trace (guarded fuel tl closers memory outputParser)
                    | _ => []
                    end
                | _ => []
                end
            | _, _ => []
            end
        | _ => []
        end
    | _ => []
    end.
Proof.
  unfold toolsAgentExecute, guarded.
  rewrite trace_bind. unfold call at 1. simpl.
  destruct (getOptionalOutputParser env) as [outputParser| |]; try reflexivity.
  rewrite trace_bind. unfold call at 1. simpl.
  destruct (getTools env) as [[result|]| |]; try reflexivity.
  destruct (tools result) as [tl|v]; [|reflexivity].
  destruct (closeFunctions result) as [closers|v]; [|reflexivity].
  rewrite trace_bind. unfold call at 1. simpl.
  destruct (getOptionalMemory env) as [memory| |]; try reflexivity.
  rewrite trace_bind. unfold call at 1. simpl.
  destruct (getChatModel env) as [[]| |]; try reflexivity.
  rewrite trace_bind.
  destruct (completion (tryFinally _ _)); simpl; now rewrite app_nil_r.
Qed.

Lemma guarded_trace (fuel : nat) (tl : list Tool) (closers : list Closer)
    (memory outputParser : bool) :
  exists work closes,
    trace (guarded fuel tl closers memory outputParser) = work ++ closes
    /\ Forall (ItemWorkWith tl) work
    /\ Forall (CloseWithin 0 (List.length closers)) closes.
Proof.
  unfold guarded. rewrite trace_tryFinally.
  eexists _, _. split; [reflexivity|]. split.
  - apply batchLoop_emits.
  - destruct (completion _); [apply closeAll_emits | apply closeAll_emits | constructor].
Qed.

(** Once the [try] statement is entered, every exit from it, a normal
    return or an error (a rejected or cancelled invocation included),
    passes through the close functions: each is called exactly once, in
    order, a failing one does not keep the next from being called, and the
    outcome of the execution is that of the loop. *)
Lemma toolsAgentExecute_teardown (fuel : nat) (outputParser memory : bool)
    (result : ToolsResult Tool) (tl : list Tool) (closers : list Closer) :
  getOptionalOutputParser env = Normal outputParser ->
  getTools env = Normal (Some result) ->
  tools result = inl tl ->
  closeFunctions result = inl closers ->
  getOptionalMemory env = Normal memory ->
  getChatModel env = Normal tt ->
  completion (batchLoop env fuel tl memory outputParser 0 []) <> Diverged ->
  (forall close, In close closers -> closerSettles close) ->
  toolsAgentExecute env fuel
  = ([GetOptionalOutputParser; GetTools; GetOptionalMemory; GetChatModel]
     ++ trace (batchLoop env fuel tl memory outputParser 0 [])
     ++ map Close (seq 0 (List.length closers)),
     match completion (batchLoop env fuel tl memory outputParser 0 []) with
     | Normal returnData => Normal [returnData]
     | Throw e => Throw e
     | Diverged => Diverged
     end).
Proof.
  intros Hop Hgt Htl Hcl Hmem Hmodel Hloop Hsettle.
  unfold toolsAgentExecute.
  rewrite Hop, Hgt. cbn [bind call fst snd app].
  rewrite Htl, Hcl, Hmem, Hmodel. cbn [bind call fst snd app].
  rewrite (closeAll_calls_each_once 0 closers Hsettle).
  unfold trace, completion in *.
  destruct (batchLoop env fuel tl memory outputParser 0 []) as [t [rd|e|]];
    simpl in *; [| |contradiction];
    unfold tryFinally, ret; simpl; now rewrite ?app_nil_r.
Qed.

(** No collaborator hangs. *)
Definition NoHang : Prop :=
  (forall i, prepareMessages env i <> Diverged)
  /\ (forall i given, executorInvoke env i given <> Diverged)
  /\ (forall response, parseOutput env response <> Diverged).

Lemma runBatch_settles (tl : list Tool) (i k : Z) (batch : list Item) :
  NoHang -> completion (runBatch env tl i k batch) <> Diverged.
Proof.
  intros (Hprep & Hinvoke & _). revert k.
  induction batch as [|item rest IH]; intros k; simpl; [discriminate|].
  apply settles_bind.
  - unfold settle, runItem, completion. simpl.
    destruct (getPromptInputByType env (i + k)); [|discriminate].
    unfold bind, lift, emit, call. simpl.
    specialize (Hprep (i + k)%Z). specialize (Hinvoke (i + k)%Z tl).
    destruct (prepareMessages env (i + k)); simpl;
      [destruct (executorInvoke env (i + k) tl)| |]; congruence.
  - intros r. apply settles_bind; [apply IH | discriminate].
Qed.

Lemma processResults_settles (memory outputParser : bool) (i index : Z)
    (batchResults : list (Settled Response)) (returnData : list (ExecutionData Json)) :
  NoHang ->
  completion (processResults env memory outputParser i index batchResults returnData)
  <> Diverged.
Proof.
  intros (_ & _ & Hparse). revert index returnData.
  induction batchResults as [|r rest IH]; intros index returnData; simpl;
    [discriminate|].
  apply settles_bind; [|intros; apply IH].
  destruct r as [response | error].
  - apply settles_bind; [|discriminate].
    destruct (memory && outputParser); [apply Hparse | discriminate].
  - destruct (continueOnFail env); [|discriminate].
    apply settles_bind; [|discriminate].
    unfold getMember. destruct (Js.nullish error); discriminate.
Qed.

(** With a batch size of at least one, as many iterations as there are
    items are enough for the loop to complete. *)
Lemma batchLoop_settles (fuel : nat) (tl : list Tool) (memory outputParser : bool)
    (i : Z) (returnData : list (ExecutionData Json)) :
  NoHang ->
  (1 <= batchSize env)%Z ->
  Z.to_nat (Z.of_nat (List.length (inputData env)) - i) <= fuel ->
  completion (batchLoop env fuel tl memory outputParser i returnData) <> Diverged.
Proof.
  intros Hnh Hbs. revert i returnData.
  induction fuel as [|fuel IH]; intros i returnData Hfuel; simpl;
    destruct (Z.ltb_spec i (Z.of_nat (List.length (inputData env)))) as [Hlt | Hge];
    try discriminate.
  - lia.
  - apply settles_bind; [now apply runBatch_settles|]. intros results.
    apply settles_bind; [now apply processResults_settles|]. intros returnData'.
    apply settles_bind; [destruct (_ && _)%bool; discriminate|]. intros _.
    apply IH. lia.
Qed.

(** C1. In one execution [getTools] is called once, and not at all only
    when the execution ends on the call before it; the call comes before
    any work on an item, the close functions are called only after all of
    it, every agent and every executor of every item and batch is created
    with the one [tools] array that this call returned, and every close
    call is a call of a member of the one [closeFunctions] array. *)
Theorem toolsAgentExecute_gets_tools_once :
  forall fuel : nat,
    let tr := trace (toolsAgentExecute env fuel) in
    countGetTools tr
    = match getOptionalOutputParser env with Normal _ => 1 | _ => 0 end
    /\ (exists setup work closes,
          tr = setup ++ work ++ closes
          /\ Forall (fun ev => isSetup ev = true) setup
          /\ Forall (fun ev => isItemWork ev = true) work
          /\ Forall (fun ev => isClose ev = true) closes)
    /\ (forall itemIndex given,
          In (CreateToolCallingAgent itemIndex given) tr
          \/ In (AgentExecutorFromAgentAndTools itemIndex given) tr ->
          exists result,
            getTools env = Normal (Some result) /\ tools result = inl given)
    /\ (forall k, In (Close k) tr ->
          exists result closers,
            getTools env = Normal (Some result)
            /\ closeFunctions result = inl closers
            /\ k < List.length closers).
Proof.
  intros fuel tr. subst tr. rewrite toolsAgentExecute_trace.
  destruct (getOptionalOutputParser env) as [outputParser| |]; try ends_in_setup.
  destruct (getTools env) as [[result|]| |]; try ends_in_setup.
  destruct (tools result) as [tl|v] eqn:Htools; [|ends_in_setup].
  destruct (closeFunctions result) as [closers|v] eqn:Hclosers; [|ends_in_setup].
  destruct (getOptionalMemory env) as [memory| |]; try ends_in_setup.
  destruct (getChatModel env) as [[]| |]; try ends_in_setup.
  destruct (guarded_trace fuel tl closers memory outputParser)
    as (work & closes & -> & Hwork & Hcloses).
  split; [|split; [|split]].
  - change (countGetTools
              ([GetOptionalOutputParser; GetTools; GetOptionalMemory; GetChatModel]
               ++ (work ++ closes)) = 1).
    rewrite !countGetTools_app.
    rewrite (countGetTools_none _ work (fun ev H => proj2 (ItemWorkWith_phase tl ev H)) Hwork).
    rewrite (countGetTools_none _ closes
               (fun ev H => proj2 (CloseWithin_phase 0 _ ev H)) Hcloses).
    reflexivity.
  - exists [GetOptionalOutputParser; GetTools; GetOptionalMemory; GetChatModel],
           work, closes.
    split; [reflexivity|]. split; [repeat constructor|]. split.
    + eapply Forall_impl; [|exact Hwork].
      intros ev H. apply (ItemWorkWith_phase tl ev H).
    + eapply Forall_impl; [|exact Hcloses].
      intros ev H. apply (CloseWithin_phase 0 _ ev H).
  - intros itemIndex given Hin. exists result. split; [reflexivity|].
    rewrite Forall_forall in Hwork, Hcloses.
    assert (Hev : forall ev, In ev (GetOptionalOutputParser :: GetTools
                      :: GetOptionalMemory :: GetChatModel :: work ++ closes) ->
                    isItemWork ev = true -> ItemWorkWith tl ev).
    { intros ev H Hphase. simpl in H.
      destruct H as [<- | [<- | [<- | [<- | H]]]]; try discriminate.
      apply in_app_or in H. destruct H as [H | H]; [now apply Hwork|].
      destruct (Hcloses ev H) as [j [-> _]]. discriminate. }
    destruct Hin as [H | H]; apply Hev in H; try reflexivity;
      simpl in H; now subst.
  - intros k Hin. exists result, closers.
    split; [reflexivity|]. split; [exact Hclosers|].
    rewrite Forall_forall in Hwork, Hcloses. simpl in Hin.
    destruct Hin as [H | [H | [H | [H | H]]]]; try discriminate.
    apply in_app_or in H. destruct H as [H | H].
    + apply Hwork in H. contradiction.
    + destruct (Hcloses _ H) as [j [E Hj]]. injection E as ->. lia.
Qed.

(** With a batch size of at least one and as many iterations as there are
    items, an execution that enters the [try] statement ends, with the
    outcome of its loop, after calling every close function once. *)
Corollary toolsAgentExecute_teardown_total (fuel : nat) (outputParser memory : bool)
    (result : ToolsResult Tool) (tl : list Tool) (closers : list Closer) :
  getOptionalOutputParser env = Normal outputParser ->
  getTools env = Normal (Some result) ->
  tools result = inl tl ->
  closeFunctions result = inl closers ->
  getOptionalMemory env = Normal memory ->
  getChatModel env = Normal tt ->
  NoHang ->
  (1 <= batchSize env)%Z ->
  List.length (inputData env) <= fuel ->
  (forall close, In close closers -> closerSettles close) ->
  completion (toolsAgentExecute env fuel) <> Diverged
  /\ filter isClose (trace (toolsAgentExecute env fuel))
     = map Close (seq 0 (List.length closers)).
Proof.
  intros Hop Hgt Htl Hcl Hmem Hmodel Hnh Hbs Hfuel Hsettle.
  assert (Hloop : completion (batchLoop env fuel tl memory outputParser 0 []) <> Diverged).
  { apply batchLoop_settles; [assumption | assumption | lia]. }
  rewrite (toolsAgentExecute_teardown fuel outputParser memory result tl closers
             Hop Hgt Htl Hcl Hmem Hmodel Hloop Hsettle).
  unfold completion, trace in *. cbn [fst snd]. split.
  - destruct (snd (batchLoop env fuel tl memory outputParser 0 []));
      [discriminate | discriminate | contradiction].
  - cbn [app filter isClose]. rewrite filter_app.
    pose proof (batchLoop_emits fuel tl memory outputParser 0 []) as Hwork.
    unfold Emits, trace in Hwork.
    assert (E : filter isClose (fst (batchLoop env fuel tl memory outputParser 0 [])) = []).
    { induction Hwork as [|ev l Hev _ IH]; [reflexivity|].
      simpl. destruct ev; simpl in Hev; try contradiction; exact IH. }
    rewrite E. apply filter_isClose_calls.
Qed.

(** A batch size of zero never advances the loop. *)
Lemma batchLoop_zero_batch_diverges (fuel : nat) (tl : list Tool)
    (memory outputParser : bool) (i : Z) (returnData : list (ExecutionData Json)) :
  batchSize env = 0%Z ->
  (0 <= i < Z.of_nat (List.length (inputData env)))%Z ->
  completion (batchLoop env fuel tl memory outputParser i returnData) = Diverged.
Proof.
  intros Hbs Hi. revert returnData.
  induction fuel as [|fuel IH]; intros returnData; simpl;
    destruct (Z.ltb_spec i (Z.of_nat (List.length (inputData env)))); try lia;
    [reflexivity|].
  assert (Hslice : slice i (i + batchSize env) (inputData env) = []).
  { unfold slice. rewrite Hbs, Z.add_0_r.
    destruct (i <? 0)%Z; now rewrite Z.sub_diag. }
  rewrite Hslice. cbn [runBatch processResults].
  rewrite !completion_bind. cbn [completion ret snd].
  rewrite Hbs, Z.add_0_r.
  destruct (_ && _)%bool; cbn [completion emit ret snd]; apply IH.
Qed.

End ExecutionFacts.

(** *** A sample execution *)

Definition sampleClosers : list Closer :=
  [Normal tt; Throw (Js.Error "Error" "socket hang up"); Normal tt].

(** Three items in batches of two; the second invocation is cancelled, the
    second close function fails. *)
Definition sampleEnvWith (closers : list Closer) (chatModel : Completion unit)
  : Env string string string string :=
  {| inputData := ["q1"; "q2"; "q3"];
     getOptionalOutputParser := Normal false;
     getTools := Normal (Some {| tools := inl ["search"; "fetch"];
                                 closeFunctions := inl closers |});
     batchSize := 2;
     delayBetweenBatches := 0;
     getOptionalMemory := Normal false;
     getChatModel := chatModel;
     getPromptInputByType := fun _ => Some "question";
     prepareMessages := fun _ => Normal tt;
     executorInvoke := fun i _ =>
       if (i =? 1)%Z then Throw (Js.Error "AbortError" "The operation was aborted")
       else Normal "answer";
     continueOnFail := true;
     parseOutput := fun response => Normal response;
     omitInternalKeys := fun response => response;
     newNodeOperationError := fun e =>
       Js.Error "NodeOperationError"
         (match Js.get "message" e with Js.Str m => m | _ => "" end);
     typeofName := fun _ => "object";
     JSON_stringify := fun _ => "{...}" |}.

Definition sampleEnv : Env string string string string :=
  sampleEnvWith sampleClosers (Normal tt).

Example sampleEnv_run :
  toolsAgentExecute sampleEnv 2
  = ([GetOptionalOutputParser; GetTools; GetOptionalMemory; GetChatModel;
      CreateToolCallingAgent 0 ["search"; "fetch"];
      AgentExecutorFromAgentAndTools 0 ["search"; "fetch"];
      ExecutorInvoke 0;
      CreateToolCallingAgent 1 ["search"; "fetch"];
      AgentExecutorFromAgentAndTools 1 ["search"; "fetch"];
      ExecutorInvoke 1;
      CreateToolCallingAgent 2 ["search"; "fetch"];
      AgentExecutorFromAgentAndTools 2 ["search"; "fetch"];
      ExecutorInvoke 2;
      Close 0; Close 1; Close 2],
     Normal [[ResultItem "answer" 0;
              ErrorItem (Js.Str "The operation was aborted") 1;
              ResultItem "answer" 2]]).
Proof. reflexivity. Qed.

Lemma toolsAgentExecute_gets_tools_once_witness :
  countGetTools (trace (toolsAgentExecute sampleEnv 2)) = 1
  /\ exists result,
       getTools sampleEnv = Normal (Some result)
       /\ tools result = inl ["search"; "fetch"].
Proof.
  destruct (toolsAgentExecute_gets_tools_once string string string string sampleEnv 2)
    as (Hcount & _ & Hsame & _).
  split; [exact Hcount|].
  apply (Hsame 2%Z). left. rewrite sampleEnv_run. simpl. tauto.
Defined.

(** The chat model cannot be obtained: no model that supports tool calling
    is connected. *)
Definition noChatModel : Js.value :=
  Js.Error "NodeOperationError"
    "Tools Agent requires Chat Model which supports Tools calling".

Definition leakingEnv : Env string string string string :=
  sampleEnvWith sampleClosers (Throw noChatModel).

(** C2, at the input where the code departs from it.  [getTools] has
    returned three close functions, that is, three open connections; the
    chat model is then found missing, before the [try] statement is
    entered.  The execution ends with that error and not one of the close
    functions is called. *)
Theorem toolsAgentExecute_leaks_when_setup_fails :
  forall fuel : nat,
    getTools leakingEnv
    = Normal (Some {| tools := inl ["search"; "fetch"];
                      closeFunctions := inl sampleClosers |})
    /\ toolsAgentExecute leakingEnv fuel
       = ([GetOptionalOutputParser; GetTools; GetOptionalMemory; GetChatModel],
          Throw noChatModel)
    /\ filter isClose (trace (toolsAgentExecute leakingEnv fuel)) = [].
Proof. intros fuel. repeat split. Qed.

(** A close function that rejects with [undefined] makes the handler's
    [e.message] throw: the remaining close functions are skipped and the
    [TypeError] replaces the result of the execution. *)
Example toolsAgentExecute_nullish_rejection :
  exists message,
    toolsAgentExecute (sampleEnvWith [Normal tt; Throw Js.Undefined; Normal tt] (Normal tt)) 2
    = ([GetOptionalOutputParser; GetTools; GetOptionalMemory; GetChatModel;
        CreateToolCallingAgent 0 ["search"; "fetch"];
        AgentExecutorFromAgentAndTools 0 ["search"; "fetch"];
        ExecutorInvoke 0;
        CreateToolCallingAgent 1 ["search"; "fetch"];
        AgentExecutorFromAgentAndTools 1 ["search"; "fetch"];
        ExecutorInvoke 1;
        CreateToolCallingAgent 2 ["search"; "fetch"];
        AgentExecutorFromAgentAndTools 2 ["search"; "fetch"];
        ExecutorInvoke 2;
        Close 0; Close 1],
       Throw (Js.Error "TypeError" message)).
Proof. eexists. reflexivity. Qed.

End AgentProps.

(** ** The executor: results, teardown and the batch loop *)

Module ExecutionExtras.

Import ToolsAgent EffFacts AgentProps.

Definition pairedItem {Json} (d : ExecutionData Json) : Z :=
  match d with
  | ErrorItem _ p => p
  | ResultItem _ p => p
  end.

Definition isResultItem {Json} (d : ExecutionData Json) : bool :=
  match d with
  | ResultItem _ _ => true
  | ErrorItem _ _ => false
  end.

(** The [n] indices from [i] on. *)
Fixpoint indicesFrom (i : Z) (n : nat) : list Z :=
  match n with
  | O => []
  | S n' => i :: indicesFrom (i + 1) n'
  end.

Lemma indicesFrom_app (i : Z) (n m : nat) :
  indicesFrom i (n + m) = indicesFrom i n ++ indicesFrom (i + Z.of_nat n) m.
Proof.
  revert i. induction n as [|n IH]; intros i.
  - simpl. now rewrite Z.add_0_r.
  - cbn [Nat.add indicesFrom app]. rewrite IH. do 3 f_equal. lia.
Qed.

Lemma completion_bind_normal {Ev A B} (m : Eff Ev A) (k : A -> Eff Ev B) (b : B) :
  completion (bind m k) = Normal b ->
  exists a, completion m = Normal a /\ completion (k a) = Normal b.
Proof.
  rewrite completion_bind. destruct (completion m) as [a| |]; try discriminate.
  intros H. now exists a.
Qed.

Lemma slice_length {A} (i size : Z) (l : list A) :
  (0 <= i < Z.of_nat (List.length l))%Z -> (1 <= size)%Z ->
  List.length (slice i (i + size) l)
  = Z.to_nat (Z.min size (Z.of_nat (List.length l) - i)).
Proof.
  intros Hi Hsize. unfold slice.
  destruct (Z.ltb_spec i 0); [lia|].
  destruct (Z.ltb_spec (i + size) 0); [lia|].
  rewrite length_firstn, length_skipn. lia.
Qed.

(** The close functions after which the [finally] block does not go on: one
    that hangs, and one that rejects with [null] or [undefined], on which
    the handler's [e.message] throws. *)
Definition stopsTeardown (close : Closer) : bool :=
  match close with
  | Normal _ => false
  | Throw e => Js.nullish e
  | Diverged => true
  end.

(** How many of the close functions are called: all of them, or those up
    to the first that stops the teardown. *)
Fixpoint calledClosers (closers : list Closer) : nat :=
  match closers with
  | [] => 0
  | close :: rest => if stopsTeardown close then 1 else S (calledClosers rest)
  end.

Definition cannotReadMessage : Js.value :=
  Js.Error "TypeError" "Cannot read properties of null or undefined (reading 'message')".

(** How the [finally] block ends. *)
Definition teardownOutcome (closers : list Closer) : Completion unit :=
  match find stopsTeardown closers with
  | None => Normal tt
  | Some (Throw _) => Throw cannotReadMessage
  | Some _ => Diverged
  end.

(** The outcome of [try { loop } finally { teardown }] when the loop has
    ended. *)
Definition afterTeardown {A} (closers : list Closer) (loop : Completion A)
  : Completion A :=
  match teardownOutcome closers with
  | Normal _ => loop
  | Throw e => Throw e
  | Diverged => Diverged
  end.

Lemma closeAll_runs {Tool} (k : nat) (closers : list Closer) :
  closeAll (Tool := Tool) k closers
  = (map Close (seq k (calledClosers closers)), teardownOutcome closers).
Proof.
  revert k. induction closers as [|close rest IH]; intros k; [reflexivity|].
  cbn [closeAll]. rewrite (IH (S k)).
  unfold teardownOutcome. cbn [find calledClosers].
  destruct close as [[]|e|]; cbn [stopsTeardown].
  - reflexivity.
  - unfold tryCatch, call, bind, getMember. cbn [fst snd].
    destruct (Js.nullish e); reflexivity.
  - reflexivity.
Qed.

Lemma settled_closers_all_called (closers : list Closer) :
  (forall close, In close closers -> closerSettles close) ->
  calledClosers closers = List.length closers
  /\ teardownOutcome closers = Normal tt.
Proof.
  unfold teardownOutcome.
  induction closers as [|close rest IH]; intros Hall; [now split|].
  destruct IH as [IHn IHo]; [intros c Hc; apply Hall; now right|].
  assert (Hstop : stopsTeardown close = false).
  { destruct (Hall close (or_introl eq_refl)) as [-> | (e & -> & He)];
      [reflexivity | exact He]. }
  cbn [calledClosers find List.length]. rewrite Hstop. split; [now rewrite IHn | exact IHo].
Qed.

Lemma calledClosers_bound (closers : list Closer) :
  calledClosers closers <= List.length closers.
Proof.
  induction closers as [|close rest IH]; [reflexivity|].
  cbn [calledClosers List.length]. destruct (stopsTeardown close); lia.
Qed.

Section Results.

Variables Item Tool Response Json : Type.
Variable env : Env Item Tool Response Json.

(** The execution gets as far as the [try] statement. *)
Definition EntersTry (outputParser memory : bool) (tl : list Tool)
    (closers : list Closer) : Prop :=
  getOptionalOutputParser env = Normal outputParser
  /\ (exists result, getTools env = Normal (Some result)
                     /\ tools result = inl tl
                     /\ closeFunctions result = inl closers)
  /\ getOptionalMemory env = Normal memory
  /\ getChatModel env = Normal tt.

Definition setupCalls : list (Event Tool) :=
  [GetOptionalOutputParser; GetTools; GetOptionalMemory; GetChatModel].

Definition returned (c : Completion (list (ExecutionData Json)))
  : Completion (list (list (ExecutionData Json))) :=
  match c with
  | Normal returnData => Normal [returnData]
  | Throw e => Throw e
  | Diverged => Diverged
  end.

Lemma toolsAgentExecute_from_try (fuel : nat) (outputParser memory : bool)
    (tl : list Tool) (closers : list Closer) :
  EntersTry outputParser memory tl closers ->
  toolsAgentExecute env fuel
  = (setupCalls ++ trace (guarded _ _ _ _ env fuel tl closers memory outputParser),
     returned (completion (guarded _ _ _ _ env fuel tl closers memory outputParser))).
Proof.
  intros (Hop & (result & Hgt & Htl & Hcl) & Hmem & Hmodel).
  unfold toolsAgentExecute, guarded.
  rewrite Hop, Hgt. cbn [bind call fst snd app].
  rewrite Htl, Hcl, Hmem, Hmodel. cbn [bind call fst snd app].
  set (g := tryFinally _ _).
  unfold bind, trace, completion, returned, setupCalls.
  destruct (snd g); cbn [ret fst snd app]; now rewrite ?app_nil_r.
Qed.

Lemma runBatch_length (tl : list Tool) (i k : Z) (batch : list Item)
    (results : list (Settled Response)) :
  completion (runBatch env tl i k batch) = Normal results ->
  List.length results = List.length batch.
Proof.
  revert k results. induction batch as [|item rest IH]; intros k results H.
  - simpl in H. injection H as <-. reflexivity.
  - simpl in H.
    apply completion_bind_normal in H. destruct H as (r & _ & H).
    apply completion_bind_normal in H. destruct H as (rs & Hrs & H).
    injection H as <-. simpl. f_equal. exact (IH _ _ Hrs).
Qed.

(** What the handling of a batch's results adds to [returnData]: one item
    for each result, paired with its index, and an error item only when
    the node continues on failure. *)
Lemma processResults_appends (memory outputParser : bool) (i index : Z)
    (results : list (Settled Response)) (returnData returnData' : list (ExecutionData Json)) :
  completion (processResults env memory outputParser i index results returnData)
  = Normal returnData' ->
  exists added,
    returnData' = returnData ++ added
    /\ map pairedItem added = indicesFrom (i + index) (List.length results)
    /\ (continueOnFail env = false -> forallb isResultItem added = true).
Proof.
  revert index returnData.
  induction results as [|result rest IH]; intros index returnData H.
  - simpl in H. injection H as <-. exists []. now rewrite app_nil_r.
  - simpl in H. apply completion_bind_normal in H.
    destruct H as (step & Hstep & H).
    assert (Hd : exists d, step = returnData ++ [d]
                           /\ pairedItem d = (i + index)%Z
                           /\ (continueOnFail env = false -> isResultItem d = true)).
    { destruct result as [response | error].
      - apply completion_bind_normal in Hstep. destruct Hstep as (r & _ & Hstep).
        injection Hstep as <-. eexists. repeat split.
      - destruct (continueOnFail env); [|discriminate].
        apply completion_bind_normal in Hstep. destruct Hstep as (m & _ & Hstep).
        injection Hstep as <-. eexists. split; [reflexivity|]. split; [reflexivity|].
        discriminate. }
    destruct Hd as (d & -> & Hp & Hr).
    destruct (IH _ _ H) as (added & -> & Hpaired & Hres).
    exists (d :: added). split; [now rewrite <- app_assoc|]. split.
    + simpl. rewrite Hp, Hpaired. do 2 f_equal. lia.
    + intros Hc. simpl. now rewrite (Hr Hc), (Hres Hc).
Qed.

Lemma batchLoop_appends (fuel : nat) (tl : list Tool) (memory outputParser : bool)
    (i : Z) (returnData returnData' : list (ExecutionData Json)) :
  (1 <= batchSize env)%Z -> (0 <= i)%Z ->
  completion (batchLoop env fuel tl memory outputParser i returnData)
  = Normal returnData' ->
  exists added,
    returnData' = returnData ++ added
    /\ map pairedItem added
       = indicesFrom i (Z.to_nat (Z.of_nat (List.length (inputData env)) - i))
    /\ (continueOnFail env = false -> forallb isResultItem added = true).
Proof.
  intros Hsize. revert i returnData.
  induction fuel as [|fuel IH]; intros i returnData Hi H; simpl in H;
    destruct (Z.ltb_spec i (Z.of_nat (List.length (inputData env)))) as [Hlt | Hge];
    try discriminate;
    try (injection H as <-; exists []; rewrite app_nil_r;
         replace (Z.to_nat _) with 0 by lia; now repeat split).
  apply completion_bind_normal in H. destruct H as (results & Hresults & H).
  apply completion_bind_normal in H. destruct H as (rd1 & Hrd1 & H).
  apply completion_bind_normal in H. destruct H as (_u & _ & H).
  apply runBatch_length in Hresults.
  rewrite (slice_length i (batchSize env) (inputData env)) in Hresults by lia.
  destruct (processResults_appends _ _ _ _ _ _ _ Hrd1) as (a1 & -> & Hp1 & Hr1).
  destruct (IH (i + batchSize env)%Z _ ltac:(lia) H) as (a2 & -> & Hp2 & Hr2).
  exists (a1 ++ a2). split; [now rewrite <- app_assoc|]. split.
  - rewrite map_app, Hp1, Hp2, Hresults, Z.add_0_r.
    set (len := Z.of_nat (List.length (inputData env))) in *.
    destruct (Z.le_ge_cases (batchSize env) (len - i)) as [Hle | Hgt].
    + replace (Z.to_nat (len - i))
        with (Z.to_nat (Z.min (batchSize env) (len - i))
              + Z.to_nat (len - (i + batchSize env))) by lia.
      rewrite indicesFrom_app. do 2 f_equal. lia.
    + replace (Z.to_nat (len - (i + batchSize env))) with 0 by lia.
      rewrite app_nil_r. f_equal. lia.
  - intros Hc. rewrite forallb_app, (Hr1 Hc), (Hr2 Hc). reflexivity.
Qed.

Lemma guarded_normal (fuel : nat) (tl : list Tool) (closers : list Closer)
    (memory outputParser : bool) (returnData : list (ExecutionData Json)) :
  completion (guarded _ _ _ _ env fuel tl closers memory outputParser) = Normal returnData ->
  completion (batchLoop env fuel tl memory outputParser 0 []) = Normal returnData.
Proof.
  unfold guarded. rewrite completion_tryFinally.
  destruct (completion (batchLoop env fuel tl memory outputParser 0 [])) as [rd|e|];
    destruct (completion (closeAll (Tool := Tool) 0 closers)); congruence.
Qed.

Lemma returned_normal (c : Completion (list (ExecutionData Json)))
    (out : list (list (ExecutionData Json))) :
  returned c = Normal out -> exists returnData, c = Normal returnData /\ out = [returnData].
Proof. destruct c as [rd|e|]; simpl; try discriminate. intros [= <-]. now exists rd. Qed.

(** Every input item gets exactly one output item, in input order and
    paired with its index, whatever the batch size and however the items
    ended. *)
Theorem toolsAgentExecute_one_item_per_input :
  forall (fuel : nat) (outputParser memory : bool) (tl : list Tool)
         (closers : list Closer) (out : list (list (ExecutionData Json))),
    EntersTry outputParser memory tl closers ->
    (1 <= batchSize env)%Z ->
    completion (toolsAgentExecute env fuel) = Normal out ->
    exists returnData,
      out = [returnData]
      /\ map pairedItem returnData
         = indicesFrom 0 (List.length (inputData env)).
Proof.
  intros fuel outputParser memory tl closers out Htry Hsize H.
  rewrite (toolsAgentExecute_from_try fuel _ _ _ _ Htry) in H.
  unfold completion in H. cbn [snd] in H.
  apply returned_normal in H. destruct H as (rd & Hrd & ->).
  apply guarded_normal in Hrd.
  destruct (batchLoop_appends _ _ _ _ _ _ _ Hsize (Z.le_refl 0) Hrd)
    as (added & -> & Hpaired & _).
  exists added. split; [reflexivity|].
  rewrite Hpaired. f_equal. lia.
Qed.



(** Once the [try] statement is entered, with a batch size of at least
    one and no call made for an item hanging, the loop ends, and whether
    it returned or threw, the close functions are called after all work on
    the items, in order and each at most once.  When every close function
    resolves, or rejects with a value other than [null] and [undefined],
    each is called exactly once and the outcome of the execution is that
    of the loop.  Otherwise the teardown stops at the first close function
    that hangs or rejects with [null] or [undefined]: the later ones are
    not called, and the execution hangs, or throws the [TypeError] of the
    handler in place of the outcome of the loop. *)
Theorem toolsAgentExecute_closes_each_once :
  forall (fuel : nat) (outputParser memory : bool) (tl : list Tool)
         (closers : list Closer),
    EntersTry outputParser memory tl closers ->
    NoHang _ _ _ _ env ->
    (1 <= batchSize env)%Z ->
    List.length (inputData env) <= fuel ->
    let loop := batchLoop env fuel tl memory outputParser 0 [] in
    completion loop <> Diverged
    /\ Forall (fun ev => isClose ev = false) (setupCalls ++ trace loop)
    /\ toolsAgentExecute env fuel
       = (setupCalls ++ trace loop ++ map Close (seq 0 (calledClosers closers)),
          returned (afterTeardown closers (completion loop)))
    /\ calledClosers closers <= List.length closers
    /\ ((forall close, In close closers -> closerSettles close) ->
        toolsAgentExecute env fuel
        = (setupCalls ++ trace loop ++ map Close (seq 0 (List.length closers)),
           returned (completion loop))).
Proof.
  intros fuel outputParser memory tl closers Htry Hnh Hsize Hfuel loop.
  assert (Hloop : completion loop <> Diverged).
  { apply batchLoop_settles; [assumption | assumption | lia]. }
  assert (Hrun : toolsAgentExecute env fuel
                 = (setupCalls ++ trace loop ++ map Close (seq 0 (calledClosers closers)),
                    returned (afterTeardown closers (completion loop)))).
  { rewrite (toolsAgentExecute_from_try fuel _ _ _ _ Htry).
    unfold guarded. fold loop.
    rewrite trace_tryFinally, completion_tryFinally.
    rewrite (closeAll_runs 0 closers).
    unfold trace at 2, completion at 3, afterTeardown. cbn [fst snd].
    destruct (completion loop); [reflexivity | reflexivity | contradiction]. }
  split; [exact Hloop|]. split; [|split; [exact Hrun|split]].
  - apply Forall_app. split; [repeat constructor|].
    pose proof (batchLoop_emits _ _ _ _ env fuel tl memory outputParser 0 []) as Hwork.
    eapply Forall_impl; [|exact Hwork].
    intros ev Hev. destruct ev; simpl in Hev; try contradiction; reflexivity.
  - apply calledClosers_bound.
  - intros Hsettle. rewrite Hrun.
    destruct (settled_closers_all_called closers Hsettle) as [Hn Ho].
    unfold afterTeardown. now rewrite Hn, Ho.
Qed.

(** A batch size of zero hangs the node: over a non-empty input the loop
    never advances, so the execution never returns and no close function
    is ever called, however long it runs. *)
Theorem toolsAgentExecute_zero_batch_never_returns :
  forall (fuel : nat) (outputParser memory : bool) (tl : list Tool)
         (closers : list Closer),
    EntersTry outputParser memory tl closers ->
    batchSize env = 0%Z ->
    inputData env <> [] ->
    completion (toolsAgentExecute env fuel) = Diverged
    /\ filter isClose (trace (toolsAgentExecute env fuel)) = [].
Proof.
  intros fuel outputParser memory tl closers Htry Hzero Hitems.
  assert (Hloop : completion (batchLoop env fuel tl memory outputParser 0 []) = Diverged).
  { apply batchLoop_zero_batch_diverges; [exact Hzero|].
    destruct (inputData env); [contradiction | simpl; lia]. }
  rewrite (toolsAgentExecute_from_try fuel _ _ _ _ Htry).
  unfold guarded. unfold completion at 1, trace at 1. cbn [fst snd].
  rewrite completion_tryFinally, trace_tryFinally, Hloop. split; [reflexivity|].
  rewrite app_nil_r. unfold setupCalls. cbn [app filter isClose].
  pose proof (batchLoop_emits _ _ _ _ env fuel tl memory outputParser 0 []) as Hwork.
  unfold Emits in Hwork.
  induction Hwork as [|ev l Hev _ IH]; [reflexivity|].
  simpl. destruct ev; simpl in Hev; try contradiction; exact IH.
Qed.

(** With no input item, once the [try] statement is entered, nothing is
    created or invoked, whatever the batch size: the execution goes
    straight to the close functions.  When every close function resolves,
    or rejects with a value other than [null] and [undefined], each is
    called once and the execution returns one empty list; otherwise the
    teardown stops at the first close function that hangs or rejects with
    [null] or [undefined], and the execution hangs or throws the handler's
    [TypeError]. *)
Theorem toolsAgentExecute_empty_input :
  forall (fuel : nat) (outputParser memory : bool) (tl : list Tool)
         (closers : list Closer),
    EntersTry outputParser memory tl closers ->
    inputData env = [] ->
    toolsAgentExecute env fuel
    = (setupCalls ++ map Close (seq 0 (calledClosers closers)),
       afterTeardown closers (Normal [[]]))
    /\ ((forall close, In close closers -> closerSettles close) ->
        toolsAgentExecute env fuel
        = (setupCalls ++ map Close (seq 0 (List.length closers)), Normal [[]])).
Proof.
  intros fuel outputParser memory tl closers Htry Hitems.
  assert (Hloop : batchLoop env fuel tl memory outputParser 0 [] = ret []).
  { destruct fuel; simpl; rewrite Hitems; reflexivity. }
  assert (Hrun : toolsAgentExecute env fuel
                 = (setupCalls ++ map Close (seq 0 (calledClosers closers)),
                    afterTeardown closers (Normal [[]]))).
  { rewrite (toolsAgentExecute_from_try fuel _ _ _ _ Htry).
    unfold guarded. rewrite Hloop, (closeAll_runs 0 closers).
    unfold afterTeardown, tryFinally, ret, trace, completion, returned.
    cbn [fst snd app].
    destruct (teardownOutcome closers); reflexivity. }
  split; [exact Hrun|].
  intros Hsettle. rewrite Hrun.
  destruct (settled_closers_all_called closers Hsettle) as [Hn Ho].
  unfold afterTeardown. now rewrite Hn, Ho.
Qed.

(** The items reject with error objects, as rejected promises do. *)
Definition RejectsWithErrors : Prop :=
  (forall i e, prepareMessages env i = Throw e -> Js.nullish e = false)
  /\ (forall i given e, executorInvoke env i given = Throw e -> Js.nullish e = false).

Definition okRejection (r : Settled Response) : Prop :=
  match r with
  | Rejected e => Js.nullish e = false
  | Fulfilled _ => True
  end.

Lemma runItem_completion (tl : list Tool) (itemIndex : Z) :
  completion (runItem env tl itemIndex)
  = match getPromptInputByType env itemIndex with
    | None => Throw emptyTextParameter
    | Some _ =>
        match prepareMessages env itemIndex with
        | Normal _ => executorInvoke env itemIndex tl
        | Throw e => Throw e
        | Diverged => Diverged
        end
    end.
Proof.
  unfold runItem. destruct (getPromptInputByType env itemIndex); [|reflexivity].
  rewrite completion_bind. unfold lift at 1, completion at 1. cbn [snd].
  destruct (prepareMessages env itemIndex); reflexivity.
Qed.

Lemma runBatch_completes (tl : list Tool) (i k : Z) (batch : list Item) :
  NoHang _ _ _ _ env -> RejectsWithErrors ->
  exists results,
    completion (runBatch env tl i k batch) = Normal results
    /\ Forall okRejection results.
Proof.
  intros (Hprep & Hinvoke & _) (Rprep & Rinvoke). revert k.
  induction batch as [|item rest IH]; intros k.
  - exists []. split; [reflexivity | constructor].
  - destruct (IH (k + 1)%Z) as (rs & Hrs & Hok).
    cbn [runBatch]. rewrite completion_bind.
    unfold settle at 1, completion at 1. cbn [snd].
    change (snd (runItem env tl (i + k))) with (completion (runItem env tl (i + k))).
    rewrite runItem_completion.
    assert (Hr : exists r, match getPromptInputByType env (i + k) with
                           | Some _ =>
                               match prepareMessages env (i + k) with
                               | Normal _ => executorInvoke env (i + k) tl
                               | Throw e => Throw e
                               | Diverged => Diverged
                               end
                           | None => Throw emptyTextParameter
                           end = r
                           /\ r <> Diverged
                           /\ forall e, r = Throw e -> Js.nullish e = false).
    { eexists. split; [reflexivity|].
      destruct (getPromptInputByType env (i + k)).
      - destruct (prepareMessages env (i + k)) eqn:E.
        + split; [apply Hinvoke | apply Rinvoke].
        + split; [discriminate|]. intros e' [= <-]. eapply Rprep, E.
        + now specialize (Hprep (i + k)%Z).
      - split; [discriminate|]. now intros e' [= <-]. }
    destruct Hr as (r & -> & Hnd & Hne).
    destruct r as [response|e|]; [| |contradiction];
      rewrite completion_bind, Hrs; eexists; (split; [reflexivity|]);
      constructor; try exact Hok; simpl; auto.
Qed.

Lemma processResults_continues (memory outputParser : bool) (i index : Z)
    (results : list (Settled Response)) (returnData : list (ExecutionData Json)) :
  continueOnFail env = true ->
  (memory && outputParser = true ->
   forall response, exists parsed, parseOutput env response = Normal parsed) ->
  Forall okRejection results ->
  exists returnData',
    completion (processResults env memory outputParser i index results returnData)
    = Normal returnData'.
Proof.
  intros Hc Hparse Hok. revert index returnData.
  induction Hok as [|result rest Hr _ IH]; intros index returnData.
  - now exists returnData.
  - cbn [processResults]. rewrite completion_bind.
    assert (Hstep : exists step,
      completion
        (match result with
         | Fulfilled response =>
             (response' <- (if memory && outputParser
                            then lift (parseOutput env response)
                            else ret response) ;;
              ret (returnData ++ [ResultItem (omitInternalKeys env response') (i + index)]))%eff
         | Rejected error =>
             if continueOnFail env
             then (message <- getMember "message" error ;;
                   ret (returnData ++ [ErrorItem message (i + index)]))%eff
             else throw (newNodeOperationError env error)
         end : Eff (Event Tool) (list (ExecutionData Json))) = Normal step).
    { destruct result as [response | error].
      - rewrite completion_bind.
        destruct (memory && outputParser) eqn:E.
        + destruct (Hparse eq_refl response) as [parsed Hp].
          unfold lift, completion at 1. cbn [snd]. rewrite Hp. eexists. reflexivity.
        + eexists. reflexivity.
      - rewrite Hc, completion_bind. unfold getMember. simpl in Hr. rewrite Hr.
        eexists. reflexivity. }
    destruct Hstep as [step ->]. apply IH.
Qed.

Lemma batchLoop_continues (fuel : nat) (tl : list Tool) (memory outputParser : bool)
    (i : Z) (returnData : list (ExecutionData Json)) :
  continueOnFail env = true ->
  (memory && outputParser = true ->
   forall response, exists parsed, parseOutput env response = Normal parsed) ->
  NoHang _ _ _ _ env -> RejectsWithErrors ->
  (1 <= batchSize env)%Z ->
  Z.to_nat (Z.of_nat (List.length (inputData env)) - i) <= fuel ->
  exists returnData',
    completion (batchLoop env fuel tl memory outputParser i returnData)
    = Normal returnData'.
Proof.
  intros Hc Hparse Hnh Hrej Hsize. revert i returnData.
  induction fuel as [|fuel IH]; intros i returnData Hfuel; simpl;
    destruct (Z.ltb_spec i (Z.of_nat (List.length (inputData env)))) as [Hlt | Hge];
    try (now exists returnData); [lia|].
  rewrite completion_bind.
  destruct (runBatch_completes tl i 0
              (slice i (i + batchSize env) (inputData env)) Hnh Hrej)
    as (results & -> & Hok).
  rewrite completion_bind.
  destruct (processResults_continues memory outputParser i 0 results returnData
              Hc Hparse Hok) as (rd1 & ->).
  rewrite completion_bind.
  destruct ((i + batchSize env <? _)%Z && (0 <? _)%Z)%bool;
    cbn [completion emit ret snd]; apply IH; lia.
Qed.

(** Under [continueOnFail] a failed or cancelled item does not fail the
    execution.  Once the [try] statement is entered, with a batch size of
    at least one, no call made for an item hanging, items that reject
    doing so with a value other than [null] and [undefined], an output
    that parses whenever memory and output parser are both connected, and
    close functions that resolve or reject with a value other than [null]
    and [undefined], the execution returns, with one item for each
    input. *)
Theorem toolsAgentExecute_continues_on_failure :
  forall (fuel : nat) (outputParser memory : bool) (tl : list Tool)
         (closers : list Closer),
    EntersTry outputParser memory tl closers ->
    continueOnFail env = true ->
    (memory && outputParser = true ->
     forall response, exists parsed, parseOutput env response = Normal parsed) ->
    NoHang _ _ _ _ env -> RejectsWithErrors ->
    (1 <= batchSize env)%Z ->
    List.length (inputData env) <= fuel ->
    (forall close, In close closers -> closerSettles close) ->
    exists returnData,
      completion (toolsAgentExecute env fuel) = Normal [returnData]
      /\ List.length returnData = List.length (inputData env).
Proof.
  intros fuel outputParser memory tl closers Htry Hc Hparse Hnh Hrej Hsize Hfuel Hsettle.
  destruct (batchLoop_continues fuel tl memory outputParser 0 [] Hc Hparse Hnh Hrej Hsize
              ltac:(lia)) as (rd & Hrd).
  exists rd.
  destruct (batchLoop_appends _ _ _ _ _ _ _ Hsize (Z.le_refl 0) Hrd)
    as (added & Hadded & Hpaired & _).
  simpl in Hadded. subst added.
  split.
  - rewrite (toolsAgentExecute_from_try fuel _ _ _ _ Htry).
    unfold guarded, completion at 1. cbn [snd].
    rewrite completion_tryFinally, Hrd.
    rewrite (closeAll_calls_each_once Tool 0 closers Hsettle). reflexivity.
  - apply (f_equal (@List.length Z)) in Hpaired. rewrite length_map in Hpaired.
    rewrite Hpaired.
    assert (L : forall i n, List.length (indicesFrom i n) = n).
    { intros i n. revert i. induction n; intros i; simpl; auto. }
    rewrite L. lia.
Qed.

(** The pauses between batches. *)
Definition pausesAsConfigured (ev : Event Tool) : Prop :=
  match ev with
  | Sleep ms => ms = delayBetweenBatches env /\ (0 < ms)%Z
  | _ => True
  end.

Lemma runBatch_never_sleeps (tl : list Tool) (i k : Z) (batch : list Item) :
  Emits pausesAsConfigured (runBatch env tl i k batch).
Proof.
  revert k. induction batch as [|item rest IH]; intros k; simpl.
  - now apply Emits_silent.
  - apply Emits_bind.
    + apply Emits_settle. unfold runItem.
      destruct (getPromptInputByType env (i + k)); [|now apply Emits_silent].
      apply Emits_bind; [now apply Emits_silent|]. intros _.
      apply Emits_bind; [now apply Emits_emit|]. intros _.
      apply Emits_bind; [now apply Emits_emit|]. intros _.
      now apply Emits_call.
    + intros r. apply Emits_bind; [apply IH|]. intros rs. now apply Emits_silent.
Qed.

Lemma batchLoop_pauses (fuel : nat) (tl : list Tool) (memory outputParser : bool)
    (i : Z) (returnData : list (ExecutionData Json)) :
  Emits pausesAsConfigured (batchLoop env fuel tl memory outputParser i returnData).
Proof.
  revert i returnData. induction fuel as [|fuel IH]; intros i returnData; simpl.
  - destruct (i <? _)%Z; now apply Emits_silent.
  - destruct (i <? _)%Z; [|now apply Emits_silent].
    apply Emits_bind; [apply runBatch_never_sleeps|]. intros results.
    apply Emits_bind; [apply Emits_silent, processResults_silent|]. intros rd.
    apply Emits_bind; [|intros _; apply IH].
    destruct (i + batchSize env <? _)%Z; simpl; [|now apply Emits_silent].
    destruct (Z.ltb_spec 0 (delayBetweenBatches env)); [|now apply Emits_silent].
    apply Emits_emit. simpl. split; [reflexivity | assumption].
Qed.

(** The executor pauses only between batches and only as configured:
    every pause lasts [delayBetweenBatches], and with a delay of zero or
    less it never pauses. *)
Theorem toolsAgentExecute_pauses_as_configured :
  forall (fuel : nat) (ms : Z),
    In (Sleep ms) (trace (toolsAgentExecute env fuel)) ->
    ms = delayBetweenBatches env /\ (0 < ms)%Z.
Proof.
  intros fuel ms Hin. rewrite toolsAgentExecute_trace in Hin.
  assert (Hg : forall tl closers memory outputParser,
             In (Sleep ms) (trace (guarded _ _ _ _ env fuel tl closers memory outputParser)) ->
             ms = delayBetweenBatches env /\ (0 < ms)%Z).
  { intros tl closers memory outputParser H.
    unfold guarded in H. rewrite trace_tryFinally in H.
    apply in_app_or in H. destruct H as [H | H].
    - pose proof (batchLoop_pauses fuel tl memory outputParser 0 []) as Hp.
      unfold Emits in Hp. rewrite Forall_forall in Hp. exact (Hp _ H).
    - assert (Hc : In (Sleep ms) (trace (closeAll (Tool := Tool) 0 closers))).
      { destruct (completion _); [exact H | exact H | destruct H]. }
      pose proof (closeAll_emits Tool 0 closers) as Hcl.
      unfold Emits in Hcl. rewrite Forall_forall in Hcl.
      destruct (Hcl _ Hc) as (j & Hj & _). discriminate. }
  destruct Hin as [Hin | Hin]; [discriminate|].
  destruct (getOptionalOutputParser env); try (now destruct Hin).
  destruct Hin as [Hin | Hin]; [discriminate|].
  destruct (getTools env) as [[result|]| |]; try (now destruct Hin).
  destruct (tools result); [|now destruct Hin].
  destruct (closeFunctions result); [|now destruct Hin].
  destruct Hin as [Hin | Hin]; [discriminate|].
  destruct (getOptionalMemory env); try (now destruct Hin).
  destruct Hin as [Hin | Hin]; [discriminate|].
  destruct (getChatModel env); try (now destruct Hin).
  now apply Hg in Hin.
Qed.

End Results.

(** *** Sample executions *)

Definition envOf (items : list string) (size delay : Z) (continue : bool)
    (closers : list Closer) : Env string string string string :=
  {| inputData := items;
     getOptionalOutputParser := Normal false;
     getTools := Normal (Some {| tools := inl ["search"; "fetch"];
                                 closeFunctions := inl closers |});
     batchSize := size;
     delayBetweenBatches := delay;
     getOptionalMemory := Normal false;
     getChatModel := Normal tt;
     getPromptInputByType := fun _ => Some "question";
     prepareMessages := fun _ => Normal tt;
     executorInvoke := fun i _ =>
       if (i =? 1)%Z then Throw (Js.Error "AbortError" "The operation was aborted")
       else Normal "answer";
     continueOnFail := continue;
     parseOutput := fun response => Normal response;
     omitInternalKeys := fun response => response;
     newNodeOperationError := fun e =>
       Js.Error "NodeOperationError"
         (match Js.get "message" e with Js.Str m => m | _ => "" end);
     typeofName := fun _ => "object";
     JSON_stringify := fun _ => "{...}" |}.

Lemma envOf_enters (items : list string) (size delay : Z) (continue : bool)
    (closers : list Closer) :
  EntersTry _ _ _ _ (envOf items size delay continue closers)
    false false ["search"; "fetch"] closers.
Proof.
  split; [reflexivity|]. split; [|split; reflexivity].
  eexists. split; [reflexivity|]. split; reflexivity.
Qed.

Lemma envOf_noHang (items : list string) (size delay : Z) (continue : bool)
    (closers : list Closer) :
  NoHang _ _ _ _ (envOf items size delay continue closers).
Proof.
  split; [|split]; intros; simpl; try discriminate.
  destruct (i =? 1)%Z; discriminate.
Qed.

Lemma envOf_rejects (items : list string) (size delay : Z) (continue : bool)
    (closers : list Closer) :
  RejectsWithErrors _ _ _ _ (envOf items size delay continue closers).
Proof.
  split; intros; simpl in *; try discriminate.
  destruct (i =? 1)%Z; try discriminate. now injection H as <-.
Qed.

Lemma sampleClosers_settle :
  forall close, In close sampleClosers -> closerSettles close.
Proof.
  intros close [<- | [<- | [<- | []]]]; [now left | right | now left].
  eexists. split; reflexivity.
Qed.

Definition threeItems : Env string string string string :=
  envOf ["q1"; "q2"; "q3"] 2 250 true sampleClosers.

Example threeItems_run :
  toolsAgentExecute threeItems 2
  = ([GetOptionalOutputParser; GetTools; GetOptionalMemory; GetChatModel;
      CreateToolCallingAgent 0 ["search"; "fetch"];
      AgentExecutorFromAgentAndTools 0 ["search"; "fetch"];
      ExecutorInvoke 0;
      CreateToolCallingAgent 1 ["search"; "fetch"];
      AgentExecutorFromAgentAndTools 1 ["search"; "fetch"];
      ExecutorInvoke 1;
      Sleep 250;
      CreateToolCallingAgent 2 ["search"; "fetch"];
      AgentExecutorFromAgentAndTools 2 ["search"; "fetch"];
      ExecutorInvoke 2;
      Close 0; Close 1; Close 2],
     Normal [[ResultItem "answer" 0;
              ErrorItem (Js.Str "The operation was aborted") 1;
              ResultItem "answer" 2]]).
Proof. reflexivity. Qed.

Lemma toolsAgentExecute_one_item_per_input_witness :
  exists returnData,
    [[ResultItem "answer" 0; ErrorItem (Js.Str "The operation was aborted") 1;
      ResultItem "answer" 2]] = [returnData]
    /\ map pairedItem returnData = [0; 1; 2]%Z.
Proof.
  exact (toolsAgentExecute_one_item_per_input _ _ _ _ threeItems 2 false false
           ["search"; "fetch"] sampleClosers _
           (envOf_enters _ _ _ _ _) ltac:(simpl; lia) eq_refl).
Defined.


(** The second close function rejects with [undefined]. *)
Definition brokenClosers : list Closer :=
  [Normal tt; Throw Js.Undefined; Normal tt].

Lemma toolsAgentExecute_closes_each_once_witness :
  (filter isClose (trace (toolsAgentExecute threeItems 3))
   = [Close 0; Close 1; Close 2]
   /\ completion (toolsAgentExecute threeItems 3)
      = Normal [[ResultItem "answer" 0%Z;
                 ErrorItem (Js.Str "The operation was aborted") 1%Z;
                 ResultItem "answer" 2%Z]])
  /\ (filter isClose
        (trace (toolsAgentExecute (envOf ["q1"; "q2"; "q3"] 2 250 true brokenClosers) 3))
      = [Close 0; Close 1]
      /\ completion (toolsAgentExecute (envOf ["q1"; "q2"; "q3"] 2 250 true brokenClosers) 3)
         = Throw cannotReadMessage).
Proof.
  split.
  - destruct (toolsAgentExecute_closes_each_once _ _ _ _ threeItems 3 false false
                ["search"; "fetch"] sampleClosers
                (envOf_enters _ _ _ _ _) (envOf_noHang _ _ _ _ _)
                ltac:(simpl; lia) ltac:(simpl; lia))
      as (_ & _ & _ & _ & H).
    rewrite (H sampleClosers_settle). split; reflexivity.
  - destruct (toolsAgentExecute_closes_each_once _ _ _ _
                (envOf ["q1"; "q2"; "q3"] 2 250 true brokenClosers) 3 false false
                ["search"; "fetch"] brokenClosers
                (envOf_enters _ _ _ _ _) (envOf_noHang _ _ _ _ _)
                ltac:(simpl; lia) ltac:(simpl; lia))
      as (_ & _ & H & _).
    rewrite H. split; reflexivity.
Defined.

Lemma toolsAgentExecute_zero_batch_never_returns_witness :
  completion (toolsAgentExecute (envOf ["q1"] 0 0 true sampleClosers) 1000) = Diverged.
Proof.
  exact (proj1 (toolsAgentExecute_zero_batch_never_returns _ _ _ _
                  (envOf ["q1"] 0 0 true sampleClosers) 1000 false false
                  ["search"; "fetch"] sampleClosers
                  (envOf_enters _ _ _ _ _) eq_refl ltac:(discriminate))).
Defined.

Lemma toolsAgentExecute_empty_input_witness :
  toolsAgentExecute (envOf [] 0 0 false sampleClosers) 0
  = ([GetOptionalOutputParser; GetTools; GetOptionalMemory; GetChatModel;
      Close 0; Close 1; Close 2], Normal [[]])
  /\ toolsAgentExecute (envOf [] 0 0 false [Throw Js.Null; Normal tt]) 0
     = ([GetOptionalOutputParser; GetTools; GetOptionalMemory; GetChatModel; Close 0],
        Throw cannotReadMessage).
Proof.
  split.
  - exact (proj2 (toolsAgentExecute_empty_input _ _ _ _
                    (envOf [] 0 0 false sampleClosers) 0
                    false false ["search"; "fetch"] sampleClosers
                    (envOf_enters _ _ _ _ _) eq_refl) sampleClosers_settle).
  - exact (proj1 (toolsAgentExecute_empty_input _ _ _ _
                    (envOf [] 0 0 false [Throw Js.Null; Normal tt]) 0
                    false false ["search"; "fetch"] [Throw Js.Null; Normal tt]
                    (envOf_enters _ _ _ _ _) eq_refl)).
Defined.

Lemma toolsAgentExecute_continues_on_failure_witness :
  exists returnData,
    completion (toolsAgentExecute threeItems 3) = Normal [returnData]
    /\ List.length returnData = 3.
Proof.
  exact (toolsAgentExecute_continues_on_failure _ _ _ _ threeItems 3 false false
           ["search"; "fetch"] sampleClosers
           (envOf_enters _ _ _ _ _) eq_refl
           ltac:(discriminate)
           (envOf_noHang _ _ _ _ _) (envOf_rejects _ _ _ _ _)
           ltac:(simpl; lia) ltac:(simpl; lia) sampleClosers_settle).
Defined.

Lemma toolsAgentExecute_pauses_as_configured_witness :
  250%Z = delayBetweenBatches threeItems /\ (0 < 250)%Z.
Proof.
  apply (toolsAgentExecute_pauses_as_configured _ _ _ _ threeItems 2 250%Z).
  rewrite threeItems_run. simpl. do 10 right. left. reflexivity.
Defined.

End ExecutionExtras.

(** ** Listing, selection and addresses: further properties *)

Module UtilsExtras.

Import McpUtils.

(** [getAllTools] keeps no record of the cursors it has seen.  When every
    response along the way names a further cursor (a server that cycles
    through its pages, or never runs out of them), the listing never
    returns, however many requests it is granted. *)
Theorem getAllTools_endless_chain_never_returns :
  forall (client : Client) (Reached : option string -> Prop),
    (forall cursor, Reached cursor ->
       exists page next,
         client cursor = Normal page
         /\ nextCursor page = Some next
         /\ next <> ""
         /\ Reached (Some next)) ->
    forall (fuel : nat) (cursor : option string),
      Reached cursor -> getAllTools fuel client cursor = Diverged.
Proof.
  intros client Reached Hstep fuel.
  induction fuel as [|fuel IH]; intros cursor Hc; [reflexivity|].
  destruct (Hstep cursor Hc) as (page & next & Hpage & Hnext & Hne & Hreached).
  simpl. rewrite Hpage, Hnext, (ListingProps.cursorPresent_some next Hne).
  now rewrite (IH (Some next) Hreached).
Qed.

(** A server that answers every request with the same page and the same
    cursor. *)
Definition sameCursorAgain : Client := fun _ =>
  Normal {| tools := ToolsArray [ListingProps.toolNamed "a"];
            nextCursor := Some "page-1" |}.

Lemma getAllTools_endless_chain_never_returns_witness :
  getAllTools 1000 sameCursorAgain None = Diverged.
Proof.
  apply (getAllTools_endless_chain_never_returns sameCursorAgain (fun _ => True));
    [|exact I].
  intros cursor _. eexists _, "page-1".
  split; [reflexivity|]. split; [reflexivity|]. split; [discriminate | exact I].
Defined.

Lemma filter_complement_permutation {A} (f : A -> bool) (l : list A) :
  Permutation (filter f l ++ filter (fun x => negb (f x)) l) l.
Proof.
  induction l as [|x l IH]; [constructor|].
  simpl. destruct (f x); simpl.
  - now constructor.
  - apply Permutation_sym, Permutation_cons_app, Permutation_sym, IH.
Qed.

Lemma filter_idempotent {A} (f : A -> bool) (l : list A) :
  filter f (filter f l) = filter f l.
Proof.
  induction l as [|x l IH]; [reflexivity|].
  simpl. destruct (f x) eqn:E; simpl; rewrite ?E, IH; reflexivity.
Qed.

(** For one non-empty list of names, ['selected'] and ['except'] split the
    catalogue: together they hold every tool exactly as often as the
    catalogue does, and no tool is in both. *)
Theorem getSelectedTools_selected_and_except_split :
  forall (names : list string) (tools : list McpTool)
         (excludeTools includeTools : option (list string)),
    names <> [] ->
    let selected := getSelectedTools "selected" (Some names) excludeTools tools in
    let others := getSelectedTools "except" includeTools (Some names) tools in
    Permutation (selected ++ others) tools
    /\ List.length selected + List.length others = List.length tools
    /\ (forall tool, In tool selected -> ~ In tool others).
Proof.
  intros names tools excludeTools includeTools Hne selected others.
  assert (Es : selected = filter (fun tool => set_has names (name tool)) tools).
  { subst selected. destruct names; [contradiction | reflexivity]. }
  assert (Eo : others = filter (fun tool => negb (set_has names (name tool))) tools)
    by reflexivity.
  rewrite Es, Eo.
  pose proof (filter_complement_permutation
                (fun tool => set_has names (name tool)) tools) as HP.
  split; [exact HP|]. split.
  - apply Permutation_length in HP. now rewrite length_app in HP.
  - intros tool Hs Ho. apply filter_In in Hs, Ho.
    destruct Hs as [_ Hs], Ho as [_ Ho]. rewrite Hs in Ho. discriminate.
Qed.

Lemma getSelectedTools_selected_and_except_split_witness :
  let catalogue := [ListingProps.toolNamed "a"; ListingProps.toolNamed "b";
                    ListingProps.toolNamed "c"] in
  List.length (getSelectedTools "selected" (Some ["b"]) None catalogue)
  + List.length (getSelectedTools "except" None (Some ["b"]) catalogue)
  = 3.
Proof.
  intros catalogue.
  exact (proj1 (proj2 (getSelectedTools_selected_and_except_split ["b"] catalogue
                         None None ltac:(discriminate)))).
Defined.

(** The filter only ever removes tools, and filtering a second time with
    the same settings changes nothing. *)
Theorem getSelectedTools_idempotent :
  forall (mode : string) (includeTools excludeTools : option (list string))
         (tools : list McpTool),
    let once := getSelectedTools mode includeTools excludeTools tools in
    getSelectedTools mode includeTools excludeTools once = once
    /\ incl once tools
    /\ List.length once <= List.length tools.
Proof.
  intros mode includeTools excludeTools tools once. subst once.
  unfold getSelectedTools.
  destruct (mode =? "selected").
  - destruct includeTools as [[|n ns]|];
      try (split; [reflexivity | split; [apply incl_refl | apply Nat.le_refl]]).
    split; [apply filter_idempotent|]. split; [apply incl_filter | apply filter_length_le].
  - destruct (mode =? "except").
    + split; [apply filter_idempotent|].
      split; [apply incl_filter | apply filter_length_le].
    + split; [reflexivity | split; [apply incl_refl | apply Nat.le_refl]].
Qed.

(** Normalising an address twice is normalising it once, and a normalised
    address always begins with one of the two schemes. *)
Theorem withProtocol_idempotent :
  forall input : string,
    withProtocol (withProtocol input) = withProtocol input
    /\ (AddressProps.BeginsWith "http://" (withProtocol input)
        \/ AddressProps.BeginsWith "https://" (withProtocol input)).
Proof.
  intros input.
  assert (H : AddressProps.BeginsWith "http://" (withProtocol input)
              \/ AddressProps.BeginsWith "https://" (withProtocol input)).
  { unfold withProtocol.
    destruct (Regex.test true httpSchemePattern input) eqn:E; simpl.
    - now apply AddressProps.test_httpSchemePattern_iff.
    - right. exists "https://", input. split; reflexivity. }
  split; [|exact H].
  now apply AddressProps.withProtocol_explicit.
Qed.

End UtilsExtras.

(** ** Schema conversion and tool calls: further properties *)

Module SchemaExtras.

Import McpUtils SchemaProps.

Lemma Mentions_middle (a s b : string) : Mentions (a ++ s ++ b) s.
Proof. now exists a, b. Qed.

Lemma Mentions_prepend (a x s : string) : Mentions x s -> Mentions (a ++ x) s.
Proof.
  intros (before & after & ->). exists (a ++ before)%string, after.
  now rewrite append_assoc.
Qed.






(** [parseRef] yields a validator for the root self-reference and for
    nothing else: any other target is refused with a plain [Error] that
    names the target, not with an [UnsupportedSchemaError]. *)
Theorem parseRef_only_root :
  forall (toStringOther : Js.value -> string) (jsonSchema : Js.value)
         (refs : JsonSchemaToZod.Refs),
    ((exists validator,
        JsonSchemaToZod.parseRef toStringOther jsonSchema refs = Normal validator)
     <-> Js.get "$ref" jsonSchema = Js.Str "#")
    /\ (Js.get "$ref" jsonSchema <> Js.Str "#" ->
          exists message,
            JsonSchemaToZod.parseRef toStringOther jsonSchema refs
            = Throw (Js.Error "Error" message)
            /\ instanceof (Js.Error "Error" message) "UnsupportedSchemaError" = false
            /\ forall ref, Js.get "$ref" jsonSchema = Js.Str ref -> Mentions message ref).
Proof.
  intros toStringOther jsonSchema refs.
  assert (Hself : JsonSchemaToZod.isSelfReference jsonSchema = true
                  <-> Js.get "$ref" jsonSchema = Js.Str "#").
  { unfold JsonSchemaToZod.isSelfReference.
    destruct (Js.get "$ref" jsonSchema); try (split; discriminate).
    rewrite String.eqb_eq. split; [now intros -> | now intros [= ->]]. }
  unfold JsonSchemaToZod.parseRef.
  destruct (JsonSchemaToZod.isSelfReference jsonSchema) eqn:E.
  - split.
    + split; [intros _; now apply Hself | intros _; eexists; reflexivity].
    + intros Hne. exfalso. apply Hne. now apply Hself.
  - split.
    + split; [intros [v Hv]; discriminate | intros H; apply Hself in H; discriminate].
    + intros _. eexists. split; [reflexivity|]. split; [reflexivity|].
      intros ref Href. rewrite Href. cbn [JsonSchemaToZod.interpolate].
      apply Mentions_middle.
Qed.

Lemma parseRef_only_root_witness :
  exists message,
    JsonSchemaToZod.parseRef sampleToString
      (Js.Obj [("$ref", Js.Str "#/definitions/node")]) {| JsonSchemaToZod.path := [] |}
    = Throw (Js.Error "Error" message)
    /\ Mentions message "#/definitions/node".
Proof.
  destruct (parseRef_only_root sampleToString
              (Js.Obj [("$ref", Js.Str "#/definitions/node")])
              {| JsonSchemaToZod.path := [] |}) as (_ & H).
  destruct (H ltac:(discriminate)) as (message & Hm & _ & Hmention).
  exists message. split; [exact Hm | now apply Hmention].
Defined.

Section ToolConversion.

Variable convertJsonSchemaToZod : Js.value -> Completion Zod.ZodType.
Variable JSON_stringify : Js.value -> string.
Variable Func : Type.

(** What [mcpToolToDynamicTool] does with each outcome of the converter:
    a validator other than [z.any()] gives the tool, with the name, the
    description (empty when absent), the validator and the invoker it was
    given; an [UnsupportedSchemaError] becomes a [NodeOperationError] whose
    message names the tool and carries the error's message and the schema's
    JSON text; any other error is thrown on unchanged. *)
Theorem mcpToolToDynamicTool_by_converter_outcome :
  forall (tool : McpTool) (onCallTool : Func),
    let run := mcpToolToDynamicTool convertJsonSchemaToZod JSON_stringify Func
                 tool onCallTool in
    (forall validator,
       convertJsonSchemaToZod (inputSchema tool) = Normal validator ->
       Zod.typeName validator <> "ZodAny" ->
       exists dynamicTool,
         run = Normal dynamicTool
         /\ Langchain.name dynamicTool = name tool
         /\ Langchain.description dynamicTool
            = match description tool with Some d => d | None => "" end
         /\ Langchain.schema dynamicTool = validator
         /\ Langchain.func dynamicTool = onCallTool)
    /\ (forall reason,
          convertJsonSchemaToZod (inputSchema tool)
          = Throw (Js.Error "UnsupportedSchemaError" reason) ->
          exists message,
            run = Throw (Js.Error "NodeOperationError" message)
            /\ Mentions message
                 ("Failed to prepare tool " ++ JsonSchemaToZod.dquote ++ name tool
                  ++ JsonSchemaToZod.dquote)
            /\ Mentions message "Schema conversion error"
            /\ Mentions message reason
            /\ Mentions message (JSON_stringify (inputSchema tool)))
    /\ (forall e,
          convertJsonSchemaToZod (inputSchema tool) = Throw e ->
          instanceof e "UnsupportedSchemaError" = false ->
          run = Throw e).
Proof.
  intros tool onCallTool run. subst run.
  unfold mcpToolToDynamicTool, convertToolSchema.
  split; [|split].
  - intros validator Hv Hany. rewrite Hv.
    destruct (String.eqb_spec (Zod.typeName validator) "ZodAny"); [contradiction|].
    simpl. eexists. repeat split.
  - intros reason Hr. rewrite Hr. simpl. eexists. split; [reflexivity|].
    unfold failedToPrepareMessage.
    cbn [Js.get String.eqb Ascii.eqb Bool.eqb].
    set (q := JsonSchemaToZod.dquote). set (j := JSON_stringify (inputSchema tool)).
    split; [|split; [|split]].
    + exists "", (": Schema conversion error. " ++ reason ++ ". Input schema: " ++ j)%string.
      simpl. now rewrite !append_assoc.
    + do 3 apply Mentions_prepend. apply Mentions_prepend.
      exists ": ", (". " ++ reason ++ ". Input schema: " ++ j)%string. reflexivity.
    + do 5 apply Mentions_prepend.
      exists "", (". Input schema: " ++ j)%string. reflexivity.
    + do 6 apply Mentions_prepend.
      exists ". Input schema: ", "". simpl.
      assert (E : forall x : string, (x ++ "")%string = x)
        by (induction x; simpl; congruence).
      now rewrite E.
  - intros e He Hinst. rewrite He. now rewrite Hinst.
Qed.

End ToolConversion.

Lemma mcpToolToDynamicTool_by_converter_outcome_witness :
  (exists dynamicTool,
     mcpToolToDynamicTool sampleConvert sampleStringify unit searchTool tt
     = Normal dynamicTool
     /\ Langchain.name dynamicTool = "search")
  /\ (exists message,
        mcpToolToDynamicTool sampleConvert sampleStringify unit defaultedTool tt
        = Throw (Js.Error "NodeOperationError" message)
        /\ Mentions message "Schema conversion error").
Proof.
  destruct (mcpToolToDynamicTool_by_converter_outcome sampleConvert sampleStringify unit
              searchTool tt) as (Hok & _).
  destruct (mcpToolToDynamicTool_by_converter_outcome sampleConvert sampleStringify unit
              defaultedTool tt) as (_ & Hunsupported & _).
  split.
  - destruct (Hok Zod.ZodString eq_refl ltac:(discriminate)) as (d & Hd & Hname & _).
    exists d. now split.
  - destruct (Hunsupported _ eq_refl) as (message & Hm & _ & Hmention & _).
    exists message. now split.
Defined.

(** The invoker built by [createCallTool] issues the remote call once;
    the call resolves, if it does, to a value other than [null] and
    [undefined], as its result schema has validated.  When the call is
    rejected, or resolves to a result whose [isError] is truthy, it calls [onError] with the description that
    [getErrorDescriptionFromToolCall] extracts from the rejection or from
    the result, and ends the way [onError] ends.  Otherwise it does not
    call [onError] and returns the result's [toolResult] when that is
    defined, else its [content] when that is defined, else the result
    itself.  It throws nothing of its own: an error leaves it only when
    [onError] raised it. *)
Theorem createCallTool_failures_go_to_onError :
  forall (name : string) (callTool : string -> Js.value -> Completion Js.value)
         (onError : option string -> Eff CallEvent Js.value) (args : Js.value),
    let run := createCallTool name callTool onError args in
    (forall error,
       callTool name args = Throw error ->
       let handled := onError (getErrorDescriptionFromToolCall error) in
       run = (CallTool name args :: trace handled, completion handled))
    /\ (forall result,
          callTool name args = Normal result ->
          Js.nullish result = false ->
          Js.truthy (Js.get "isError" result) = true ->
          let handled := onError (getErrorDescriptionFromToolCall result) in
          run = (CallTool name args :: trace handled, completion handled))
    /\ (forall result,
          callTool name args = Normal result ->
          Js.nullish result = false ->
          Js.truthy (Js.get "isError" result) = false ->
          exists payload,
            run = ([CallTool name args], Normal payload)
            /\ (Js.get "toolResult" result <> Js.Undefined
                /\ payload = Js.get "toolResult" result
                \/ Js.get "toolResult" result = Js.Undefined
                   /\ (Js.get "content" result <> Js.Undefined
                       /\ payload = Js.get "content" result
                       \/ Js.get "content" result = Js.Undefined
                          /\ payload = result)))
    /\ (callTool name args = Diverged -> run = ([CallTool name args], Diverged))
    /\ ((forall result, callTool name args = Normal result ->
                         Js.nullish result = false) ->
        forall e, completion run = Throw e ->
          exists description, completion (onError description) = Throw e).
Proof.
  intros name callTool onError args run. subst run.
  unfold createCallTool, bind, settle, call, trace, completion.
  cbn [fst snd app].
  destruct (callTool name args) as [result|e|] eqn:Hcall; cbn [fst snd app].
  - destruct (Js.truthy (Js.get "isError" result)) eqn:Herr.
    + split; [discriminate|].
      split; [intros r [= <-] _ _; reflexivity|].
      split; [intros r [= <-] _; rewrite Herr; discriminate|].
      split; [discriminate|].
      intros _ e He. eexists. exact He.
    + split; [discriminate|].
      split; [intros r [= <-] _; rewrite Herr; discriminate|].
      assert (Hpay : exists payload,
                (if Js.defined (Js.get "toolResult" result)
                 then ret (Js.get "toolResult" result)
                 else if Js.defined (Js.get "content" result)
                      then ret (Js.get "content" result)
                      else ret result)
                = (([] : list CallEvent), Normal payload)
                /\ (Js.get "toolResult" result <> Js.Undefined
                    /\ payload = Js.get "toolResult" result
                    \/ Js.get "toolResult" result = Js.Undefined
                       /\ (Js.get "content" result <> Js.Undefined
                           /\ payload = Js.get "content" result
                           \/ Js.get "content" result = Js.Undefined
                              /\ payload = result))).
      { destruct (Js.get "toolResult" result) eqn:Ht;
          try (eexists; split; [reflexivity|]; left; split;
               [discriminate | reflexivity]).
        destruct (Js.get "content" result) eqn:Hc;
          try (eexists; split; [reflexivity|]; right; split; [reflexivity|];
               left; split; [discriminate | reflexivity]).
        eexists. split; [reflexivity|].
        right. split; [reflexivity|]. right. now split. }
      destruct Hpay as (payload & -> & Hwhich). cbn [fst snd].
      split; [intros r [= <-] _ _; exists payload; split; [reflexivity | exact Hwhich]|].
      split; [discriminate|]. intros _. discriminate.
  - split; [intros e' [= <-]; reflexivity|].
    split; [discriminate|]. split; [discriminate|]. split; [discriminate|].
    intros _ e' He. eexists. exact He.
  - split; [discriminate|]. split; [discriminate|]. split; [discriminate|].
    split; [reflexivity|]. intros _. discriminate.
Qed.

(** A handler that raises a [NodeOperationError] with the description. *)
Definition raiseToolError (description : option string) : Eff CallEvent Js.value :=
  throw (Js.Error "NodeOperationError"
           (match description with Some d => d | None => "Tool call failed" end)).

Lemma createCallTool_failures_go_to_onError_witness :
  createCallTool "search"
    (fun _ _ => Normal (Js.Obj [("isError", Js.Bool true);
                                ("content", Js.Arr [Js.Obj [("type", Js.Str "text");
                                                            ("text", Js.Str "quota exceeded")]])]))
    raiseToolError (Js.Obj [])
  = ([CallTool "search" (Js.Obj [])],
     Throw (Js.Error "NodeOperationError" "quota exceeded"))
  /\ createCallTool "search" (fun _ _ => Throw (Js.Error "Error" "socket hang up"))
       raiseToolError (Js.Obj [])
     = ([CallTool "search" (Js.Obj [])],
        Throw (Js.Error "NodeOperationError" "socket hang up")).
Proof.
  split.
  - exact (proj1 (proj2 (createCallTool_failures_go_to_onError "search"
                           (fun _ _ => Normal (Js.Obj [("isError", Js.Bool true);
                                ("content", Js.Arr [Js.Obj [("type", Js.Str "text");
                                                            ("text", Js.Str "quota exceeded")]])]))
                           raiseToolError (Js.Obj [])))
             _ eq_refl eq_refl eq_refl).
  - exact (proj1 (createCallTool_failures_go_to_onError "search"
                    (fun _ _ => Throw (Js.Error "Error" "socket hang up"))
                    raiseToolError (Js.Obj []))
             _ eq_refl).
Defined.

End SchemaExtras.

(** ** Authentication headers and the tool options *)

Module LoadOptionsExtras.

Import McpLoadOptions EffFacts.

Section AuthFacts.

Variable toStringOther : Js.value -> string.
Variable getCredentials : string -> Completion Js.value.

Let run := getAuthHeaders toStringOther getCredentials.

Lemma credentialsOrNull_outcome (type : string) :
  credentialsOrNull getCredentials type
  = ([GetCredentials type],
     match getCredentials type with
     | Normal credentials => Normal credentials
     | Throw _ => Normal Js.Null
     | Diverged => Diverged
     end).
Proof.
  unfold credentialsOrNull, tryCatch, call. cbn [fst snd].
  destruct (getCredentials type); reflexivity.
Qed.

(** [getAuthHeaders] never fails and asks for at most one credential, that
    of the chosen mode.  When the lookup is rejected, or the mode is
    ['none'] or unknown, it answers without headers; a bearer credential
    becomes the single header [Authorization: Bearer <token>], a header
    credential the single header it names. *)
Theorem getAuthHeaders_never_fails :
  forall authentication : string,
    (forall e, completion (run authentication) <> Throw e)
    /\ (trace (run authentication) = []
        \/ (authentication = "headerAuth"
            /\ trace (run authentication) = [GetCredentials "httpHeaderAuth"])
        \/ (authentication = "bearerAuth"
            /\ trace (run authentication) = [GetCredentials "httpBearerAuth"]))
    /\ (authentication <> "headerAuth" -> authentication <> "bearerAuth" ->
          run authentication = ([], Normal None))
    /\ (forall e, getCredentials "httpHeaderAuth" = Throw e ->
          completion (run "headerAuth") = Normal None)
    /\ (forall e, getCredentials "httpBearerAuth" = Throw e ->
          completion (run "bearerAuth") = Normal None)
    /\ (forall credentials token,
          getCredentials "httpBearerAuth" = Normal credentials ->
          Js.truthy credentials = true ->
          Js.get "token" credentials = Js.Str token ->
          completion (run "bearerAuth")
          = Normal (Some (Js.Obj [("Authorization", Js.Str ("Bearer " ++ token))])))
    /\ (forall credentials headerName headerValue,
          getCredentials "httpHeaderAuth" = Normal credentials ->
          Js.truthy credentials = true ->
          Js.get "name" credentials = Js.Str headerName ->
          Js.get "value" credentials = headerValue ->
          completion (run "headerAuth")
          = Normal (Some (Js.Obj [(headerName, headerValue)]))).
Proof.
  intros authentication. subst run. cbv beta.
  split; [|split; [|split; [|split; [|split; [|split]]]]].
  - intros e. unfold getAuthHeaders.
    destruct (authentication =? "headerAuth");
      [|destruct (authentication =? "bearerAuth"); [|discriminate]];
      rewrite completion_bind, credentialsOrNull_outcome;
      unfold completion at 1; cbn [snd];
      destruct (getCredentials _) as [c| |]; try discriminate;
      try (destruct (Js.truthy c); discriminate).
  - unfold getAuthHeaders.
    destruct (String.eqb_spec authentication "headerAuth") as [-> | _].
    + right. left. split; [reflexivity|].
      rewrite trace_bind, credentialsOrNull_outcome.
      unfold trace at 1, completion at 1. cbn [fst snd].
      destruct (getCredentials _) as [c| |]; try reflexivity;
        try (destruct (Js.truthy c); reflexivity).
    + destruct (String.eqb_spec authentication "bearerAuth") as [-> | _];
        [|now left].
      right. right. split; [reflexivity|].
      rewrite trace_bind, credentialsOrNull_outcome.
      unfold trace at 1, completion at 1. cbn [fst snd].
      destruct (getCredentials _) as [c| |]; try reflexivity;
        try (destruct (Js.truthy c); reflexivity).
  - intros H1 H2. unfold getAuthHeaders.
    destruct (String.eqb_spec authentication "headerAuth"); [contradiction|].
    destruct (String.eqb_spec authentication "bearerAuth"); [contradiction|].
    reflexivity.
  - intros e He. unfold getAuthHeaders. cbn [String.eqb Ascii.eqb Bool.eqb].
    rewrite completion_bind, credentialsOrNull_outcome, He. reflexivity.
  - intros e He. unfold getAuthHeaders. cbn [String.eqb Ascii.eqb Bool.eqb].
    rewrite completion_bind, credentialsOrNull_outcome, He. reflexivity.
  - intros credentials token Hc Ht Htoken.
    unfold getAuthHeaders. cbn [String.eqb Ascii.eqb Bool.eqb].
    rewrite completion_bind, credentialsOrNull_outcome, Hc.
    unfold completion at 1. cbn [snd]. rewrite Ht, Htoken. reflexivity.
  - intros credentials headerName headerValue Hc Ht Hname Hvalue.
    unfold getAuthHeaders. cbn [String.eqb Ascii.eqb Bool.eqb].
    rewrite completion_bind, credentialsOrNull_outcome, Hc.
    unfold completion at 1. cbn [snd]. rewrite Ht, Hname, Hvalue. reflexivity.
Qed.

End AuthFacts.

(** A credential store that holds a bearer token and no header credential. *)
Definition bearerOnly (type : string) : Completion Js.value :=
  if type =? "httpBearerAuth" then Normal (Js.Obj [("token", Js.Str "s3cret")])
  else Throw (Js.Error "Error" "Credentials not found").

Lemma getAuthHeaders_never_fails_witness :
  completion (getAuthHeaders SchemaProps.sampleToString bearerOnly "bearerAuth")
  = Normal (Some (Js.Obj [("Authorization", Js.Str "Bearer s3cret")]))
  /\ completion (getAuthHeaders SchemaProps.sampleToString bearerOnly "headerAuth")
     = Normal None
  /\ getAuthHeaders SchemaProps.sampleToString bearerOnly "none" = ([], Normal None).
Proof.
  split; [|split].
  - destruct (getAuthHeaders_never_fails SchemaProps.sampleToString bearerOnly "bearerAuth")
      as (_ & _ & _ & _ & _ & H & _).
    exact (H _ "s3cret" eq_refl eq_refl eq_refl).
  - destruct (getAuthHeaders_never_fails SchemaProps.sampleToString bearerOnly "headerAuth")
      as (_ & _ & _ & H & _).
    exact (H _ eq_refl).
  - destruct (getAuthHeaders_never_fails SchemaProps.sampleToString bearerOnly "none")
      as (_ & _ & H & _).
    apply H; discriminate.
Defined.

Section OptionFacts.

Variable URL : Type.
Variable newURL : string -> URL + Js.value.
Variable connect : URL -> option Js.value -> Completion unit.
Variable toStringOther : Js.value -> string.
Variable getCredentials : string -> Completion Js.value.
Variable listTools : McpUtils.ClientHandle URL -> McpUtils.Client.

Let load := getTools URL newURL connect toStringOther getCredentials listTools.

Lemma embed_trace {Ev Ev' A} (f : Ev -> Ev') (m : Eff Ev A) :
  trace (embed f m) = map f (trace m).
Proof. reflexivity. Qed.

Lemma embed_completion {Ev Ev' A} (f : Ev -> Ev') (m : Eff Ev A) :
  completion (embed f m) = completion m.
Proof. reflexivity. Qed.

Lemma not_in_map_auth (l : list AuthEvent) :
  ~ In (GetAllTools (URL := URL)) (map Auth l).
Proof. induction l; simpl; [tauto|]. intros [H | H]; [discriminate | tauto]. Qed.

Lemma not_in_map_net (l : list (McpUtils.NetEvent URL Js.value)) :
  ~ In (GetAllTools (URL := URL)) (map Net l).
Proof. induction l; simpl; [tauto|]. intros [H | H]; [discriminate | tauto]. Qed.

(** The options offered for a server are its tools, one option for each
    listed tool, in listing order, with the tool's name as the option's
    name and value.  When the connection cannot be made, for a malformed
    address as for a refused handshake, the one error is 'Could not
    connect to your MCP server' and no listing is attempted; a listing
    that fails fails the options. *)
Theorem getTools_options_follow_the_listing :
  forall (fuel : nat) (authentication sseEndpoint nodeType : string)
         (nodeTypeVersion : Z) (headers : option Js.value),
    completion (getAuthHeaders toStringOther getCredentials authentication)
    = Normal headers ->
    let run := load fuel authentication sseEndpoint nodeType nodeTypeVersion in
    let connection :=
      McpUtils.connectMcpClient URL newURL Js.value connect headers sseEndpoint
        nodeType nodeTypeVersion in
    (forall error,
       completion connection = Normal (Err error) ->
       completion run = Throw couldNotConnect /\ ~ In GetAllTools (trace run))
    /\ (forall connected listed,
          completion connection = Normal (Ok connected) ->
          McpUtils.getAllTools fuel (listTools connected) None = Normal listed ->
          exists options,
            completion run = Normal options
            /\ map name options = map McpUtils.name listed
            /\ map value options = map McpUtils.name listed
            /\ map description options = map McpUtils.description listed
            /\ map inputSchema options = map McpUtils.inputSchema listed)
    /\ (forall connected e,
          completion connection = Normal (Ok connected) ->
          McpUtils.getAllTools fuel (listTools connected) None = Throw e ->
          completion run = Throw e).
Proof.
  intros fuel authentication sseEndpoint nodeType nodeTypeVersion headers Hauth
         run connection.
  subst run load. unfold getTools.
  split; [|split].
  - intros error Hconn. split.
    + rewrite completion_bind, embed_completion, Hauth.
      rewrite completion_bind, embed_completion. fold connection. rewrite Hconn.
      reflexivity.
    + rewrite trace_bind, embed_completion, Hauth, embed_trace.
      rewrite trace_bind, embed_completion, embed_trace. fold connection.
      rewrite Hconn. unfold throw, trace at 3. cbn [fst]. rewrite app_nil_r.
      intros Hin. apply in_app_or in Hin. destruct Hin as [Hin | Hin].
      * exact (not_in_map_auth _ Hin).
      * exact (not_in_map_net _ Hin).
  - intros connected listed Hconn Hlist.
    eexists. split.
    + rewrite completion_bind, embed_completion, Hauth.
      rewrite completion_bind, embed_completion. fold connection. rewrite Hconn.
      rewrite completion_bind. unfold call, completion at 1. cbn [snd].
      rewrite Hlist. reflexivity.
    + rewrite !map_map. cbn [name value description inputSchema].
      repeat split; reflexivity.
  - intros connected e Hconn Hlist.
    rewrite completion_bind, embed_completion, Hauth.
    rewrite completion_bind, embed_completion. fold connection. rewrite Hconn.
    rewrite completion_bind. unfold call, completion at 1. cbn [snd].
    now rewrite Hlist.
Qed.

End OptionFacts.

Lemma getTools_options_follow_the_listing_witness :
  (exists options,
     completion (getTools string AddressProps.sampleNewURL (fun _ _ => Normal tt)
                   SchemaProps.sampleToString bearerOnly
                   (fun _ => ListingProps.threePages)
                   3 "bearerAuth" "mcp.example.com/sse" "mcpClientTool" 1)
     = Normal options
     /\ map name options = ["a"; "b"; "c"])
  /\ completion (getTools string AddressProps.sampleNewURL (fun _ _ => Normal tt)
                   SchemaProps.sampleToString bearerOnly
                   (fun _ => ListingProps.threePages)
                   3 "bearerAuth" "" "mcpClientTool" 1)
     = Throw couldNotConnect.
Proof.
  split.
  - destruct (getTools_options_follow_the_listing string AddressProps.sampleNewURL
                (fun _ _ => Normal tt) SchemaProps.sampleToString bearerOnly
                (fun _ => ListingProps.threePages)
                3 "bearerAuth" "mcp.example.com/sse" "mcpClientTool" 1 _ eq_refl)
      as (_ & H & _).
    destruct (H _ _ eq_refl eq_refl) as (options & Ho & Hn & _).
    exists options. split; [exact Ho | exact Hn].
  - destruct (getTools_options_follow_the_listing string AddressProps.sampleNewURL
                (fun _ _ => Normal tt) SchemaProps.sampleToString bearerOnly
                (fun _ => ListingProps.threePages)
                3 "bearerAuth" "" "mcpClientTool" 1 _ eq_refl)
      as (H & _).
    exact (proj1 (H _ eq_refl)).
Defined.

End LoadOptionsExtras.
